(** * Verification of the FastPay NFC terminal: PN532 framing, NDEF wrapping,
      card-emulation session, tap deduplication and reconnect supervisor.

    Bytes are modelled as [Z] values; a Python [bytearray.append] or
    [bytearray.extend] with a value outside [0, 255] raises [ValueError],
    which is modelled as [None]. A serial port is modelled as the finite list
    of bytes it delivers before the read timeout; the exhaustion of that list
    stands for the timeout. *)

From Stdlib Require Import ZArith String List Bool Lia ZifyNat.
Import ListNotations.
Open Scope Z_scope.

(** ** Shared byte helpers *)

Definition is_byte (v : Z) : bool := (0 <=? v) && (v <=? 255).

Definition sum (l : list Z) : Z := fold_right Z.add 0 l.

(** Python [data[1:-1]]. *)
Definition slice_1_m1 (l : list Z) : list Z :=
  firstn (length l - 2) (skipn 1 l).

(** ** FrameCodec: [send_command] / [read_response] of card-emulation-raw.py *)
Module FrameCodec.

(** The frame built by [send_command] (lines 27-44). [None] when an appended
    value is not a byte (Python raises [ValueError]). *)
Definition send_command_frame (command_code : Z) (params : list Z)
  : option (list Z) :=
  let length := Z.of_nat (List.length params) + 2 in
  let lcs := Z.land (Z.lnot length + 1) 255 in
  let dcs := Z.land (Z.lnot (212 + command_code + sum params) + 1) 255 in
  if is_byte length && is_byte command_code && forallb is_byte params
  then Some ([0; 0; 255; length; lcs; 212; command_code]
               ++ params ++ [dcs; 0])
  else None.

(** The preamble wait (lines 57-64): read one byte; if it is [00], read two
    more and stop if they are [00 FF]; otherwise keep scanning. The bytes read
    by a failed [read(2)] are consumed. Running out of bytes is the deadline. *)
Fixpoint wait_preamble (s : list Z) : option (list Z) :=
  match s with
  | [] => None
  | b :: rest =>
      if b =? 0 then
        match rest with
        | a :: c :: rest' =>
            if (a =? 0) && (c =? 255) then Some rest' else wait_preamble rest'
        | _ => None
        end
      else wait_preamble rest
  end.

(** [read_response] (lines 53-86). Note that the data checksum is read but
    never compared. *)
Definition read_response (s : list Z) : option (list Z) :=
  match wait_preamble s with
  | None => None
  | Some s1 =>
      match s1 with
      | [] => None
      | length :: s2 =>
          match s2 with
          | [] => None
          | lcs :: s3 =>
              if negb (Z.land (length + lcs) 255 =? 0) then None
              else
                let data := firstn (Z.to_nat length + 1) s3 in
                if negb (Nat.eqb (List.length data) (Z.to_nat length + 1))
                then None
                else Some (slice_1_m1 data)
          end
      end
  end.

(** Replace the byte at index [n] (no change out of range). *)
Fixpoint list_set (n : nat) (v : Z) (l : list Z) : list Z :=
  match n, l with
  | _, [] => []
  | O, _ :: t => v :: t
  | S n', x :: t => x :: list_set n' v t
  end.

End FrameCodec.

(** ** NDEF text record and TLV wrapper (write-ndef-formatted.py) *)
Module Ndef.

(** [create_ndef_text_record] (lines 24-56); [text_bytes] is
    [text.encode('utf-8')]. [None] when [payload_length] is not a byte. *)
Definition create_ndef_text_record (text_bytes : list Z) : option (list Z) :=
  let header := 209 in
  let type_field := [84] in
  let type_length := Z.of_nat (List.length type_field) in
  let language := [2; 101; 110] in
  let payload := language ++ text_bytes in
  let payload_length := Z.of_nat (List.length payload) in
  if is_byte payload_length
  then Some ([header; type_length; payload_length] ++ type_field ++ payload)
  else None.

(** [create_ndef_message] (lines 58-84): TLV type [03], a one-byte length
    below 255 or [FF] and a two-byte big-endian length, the record, [FE]. *)
Definition create_ndef_message (text_bytes : list Z) : option (list Z) :=
  match create_ndef_text_record text_bytes with
  | None => None
  | Some ndef_record =>
      let n := Z.of_nat (List.length ndef_record) in
      let len_field :=
        if n <? 255 then Some [n]
        else if n <? 65536 then Some [255; Z.shiftr n 8; Z.land n 255]
        else None in
      match len_field with
      | None => None
      | Some lf => Some ([3] ++ lf ++ ndef_record ++ [254])
      end
  end.

End Ndef.

(** ** Card-emulation session loop (card-emulation-raw.py, lines 211-262) *)
Module CardSession.

(** "Skip status byte if present": drop one leading [00]. *)
Definition strip_status (cmd : list Z) : list Z :=
  match cmd with
  | c0 :: rest => if c0 =? 0 then rest else cmd
  | [] => []
  end.

(** The reply built for one inbound command (lines 222-248); [None] when
    fewer than two bytes remain, in which case nothing is sent. *)
Definition apdu_reply (ndef_msg cmd : list Z) : option (list Z) :=
  match strip_status cmd with
  | _cla :: ins :: _ =>
      Some (if ins =? 164 then [144; 0]
            else if ins =? 176 then firstn 50 ndef_msg ++ [144; 0]
            else [106; 130])
  | _ => None
  end.



Definition ndef60 : list Z := map Z.of_nat (seq 1 60).

End CardSession.

(** ** NFCReader (terminal/scripts/nfc_reader.py) *)
Module NFCReader.

(** Times are monotonic clock readings in milliseconds. *)
Definition HEARTBEAT_INTERVAL_MS : Z := 30000.
Definition SIGNAL_STABILIZE_DELAY_MS : Z := 200.
Definition MAX_RETRIES : nat := 5.

Record config := {
  port : string;
  baud_rate : Z;
  debounce_ms : Z;
  dedup_buffer_size : nat
}.

(** IPC events (the wall-clock [timestamp] field is left out). *)
Inductive event :=
| Ready (firmware port : string)
| Tap (uid : string)
| Heartbeat
| Shutdown (signum : Z)
| Error (message : string) (fatal : bool).

Record tap := { tap_uid : string; tap_time : Z }.

(** [collections.deque(maxlen=m).append]: append on the right, then drop
    from the left until at most [m] elements remain. *)
Definition deque_append {A} (maxlen : nat) (d : list A) (x : A) : list A :=
  let b := d ++ [x] in skipn (List.length b - maxlen) b.

(** [uid.hex().upper()]. *)
Definition nibble_char (n : Z) : Ascii.ascii :=
  if n <? 10 then Ascii.ascii_of_nat (Z.to_nat (48 + n))
  else Ascii.ascii_of_nat (Z.to_nat (55 + n)).

Fixpoint hex_upper (u : list Z) : string :=
  match u with
  | [] => EmptyString
  | b :: rest =>
      String (nibble_char (Z.shiftr b 4))
        (String (nibble_char (Z.land b 15)) (hex_upper rest))
  end.

(** [_is_duplicate_tap] (lines 126-132) with [now] the monotonic reading it
    takes. *)
Definition is_duplicate_tap (cfg : config) (recent_taps : list tap)
    (uid_hex : string) (now : Z) : bool :=
  existsb (fun t => String.eqb (tap_uid t) uid_hex
                    && (now - tap_time t <? debounce_ms cfg))
    recent_taps.

(** [_record_tap] (lines 134-139). *)
Definition record_tap (cfg : config) (recent_taps : list tap)
    (uid_hex : string) (now : Z) : list tap :=
  deque_append (dedup_buffer_size cfg) recent_taps
    {| tap_uid := uid_hex; tap_time := now |}.

(** The fields of an [NFCReader] instance that the loops read and write,
    together with the IPC output ([events]) and the backoff waits requested
    from [_interruptible_sleep] ([waits], in seconds). *)
Record reader := {
  retry_count : nat;
  shutdown_requested : bool;
  fatal_exit : bool;
  recent_taps : list tap;
  last_heartbeat : Z;
  events : list event;
  waits : list Z
}.

Definition emit (e : event) (r : reader) : reader :=
  {| retry_count := retry_count r; shutdown_requested := shutdown_requested r;
     fatal_exit := fatal_exit r; recent_taps := recent_taps r;
     last_heartbeat := last_heartbeat r; events := events r ++ [e];
     waits := waits r |}.

Definition set_retry_count (n : nat) (r : reader) : reader :=
  {| retry_count := n; shutdown_requested := shutdown_requested r;
     fatal_exit := fatal_exit r; recent_taps := recent_taps r;
     last_heartbeat := last_heartbeat r; events := events r;
     waits := waits r |}.

Definition set_shutdown (r : reader) : reader :=
  {| retry_count := retry_count r; shutdown_requested := true;
     fatal_exit := fatal_exit r; recent_taps := recent_taps r;
     last_heartbeat := last_heartbeat r; events := events r;
     waits := waits r |}.

Definition set_fatal (r : reader) : reader :=
  {| retry_count := retry_count r; shutdown_requested := shutdown_requested r;
     fatal_exit := true; recent_taps := recent_taps r;
     last_heartbeat := last_heartbeat r; events := events r;
     waits := waits r |}.

Definition set_recent (l : list tap) (r : reader) : reader :=
  {| retry_count := retry_count r; shutdown_requested := shutdown_requested r;
     fatal_exit := fatal_exit r; recent_taps := l;
     last_heartbeat := last_heartbeat r; events := events r;
     waits := waits r |}.

Definition set_heartbeat (t : Z) (r : reader) : reader :=
  {| retry_count := retry_count r; shutdown_requested := shutdown_requested r;
     fatal_exit := fatal_exit r; recent_taps := recent_taps r;
     last_heartbeat := t; events := events r; waits := waits r |}.

Definition add_wait (w : Z) (r : reader) : reader :=
  {| retry_count := retry_count r; shutdown_requested := shutdown_requested r;
     fatal_exit := fatal_exit r; recent_taps := recent_taps r;
     last_heartbeat := last_heartbeat r; events := events r;
     waits := waits r ++ [w] |}.

(** [_handle_shutdown] (lines 114-124): idempotent. *)
Definition handle_shutdown (signum : Z) (r : reader) : reader :=
  if shutdown_requested r then r else emit (Shutdown signum) (set_shutdown r).

(** [_send_heartbeat_if_needed] (lines 141-146). *)
Definition send_heartbeat_if_needed (now : Z) (r : reader) : reader :=
  if HEARTBEAT_INTERVAL_MS <=? now - last_heartbeat r
  then set_heartbeat now (emit Heartbeat r) else r.

(** One iteration of [_scan_loop] (lines 218-237): the three monotonic
    readings taken (heartbeat check, duplicate check, record) and the result
    of [read_passive_target]. *)
Record poll := {
  hb_now : Z;
  polled : option (list Z);
  dup_now : Z;
  rec_now : Z
}.

Definition scan_iteration (cfg : config) (p : poll) (r : reader) : reader :=
  let r1 := send_heartbeat_if_needed (hb_now p) r in
  match polled p with
  | None | Some [] => r1
  | Some uid =>
      let uid_hex := hex_upper uid in
      if is_duplicate_tap cfg (recent_taps r1) uid_hex (dup_now p) then r1
      else emit (Tap uid_hex)
             (set_recent (record_tap cfg (recent_taps r1) uid_hex (rec_now p)) r1)
  end.

(** [_scan_loop] over the polls performed before it is left (by the
    shutdown flag or an exception, see [scan_end]). *)
Fixpoint scan_loop (cfg : config) (polls : list poll) (r : reader) : reader :=
  match polls with
  | [] => r
  | p :: rest => scan_loop cfg rest (scan_iteration cfg p r)
  end.

(** Recoverable exceptions: [serial.SerialException] is reported as
    "Serial", [RuntimeError] and [OSError] as "PN532" (lines 264-266). *)
Inductive err_class := SerialError | PN532Error.

Definition error_type (c : err_class) : string :=
  match c with SerialError => "Serial"%string | PN532Error => "PN532"%string end.

(** [_interruptible_sleep] (lines 148-160): [signal] is the signal delivered
    while sleeping, if any (heartbeats emitted during the sleep are not
    modelled). Returns [not shutdown_requested]. *)
Definition interruptible_sleep (total_seconds : Z) (signal : option Z)
    (r : reader) : bool * reader :=
  let r1 := add_wait total_seconds r in
  let r2 := match signal with
            | Some signum => handle_shutdown signum r1
            | None => r1
            end in
  (negb (shutdown_requested r2), r2).

(** [_handle_retry] (lines 162-186); [true] means retry. *)
Definition handle_retry (c : err_class) (error_message : string)
    (signal : option Z) (r : reader) : bool * reader :=
  let r1 := emit (Error (error_type c ++ " error: " ++ error_message)%string false) r in
  let r2 := set_retry_count (S (retry_count r1)) r1 in
  if (MAX_RETRIES <=? retry_count r2)%nat
  then (false, emit (Error "Max retries reached"%string true) r2)
  else
    let wait_time := 2 ^ Z.of_nat (retry_count r2) in
    interruptible_sleep wait_time signal r2.

(** How the scan phase of a connected attempt is left. *)
Inductive scan_end :=
| EndShutdown (signum : Z)
| EndRecoverable (c : err_class) (msg : string) (signal : option Z)
| EndUnexpected (msg : string).

(** One pass of the body of the [while] loop of [run] (lines 250-275), as
    the environment decides it. *)
Inductive attempt :=
| InitRecoverable (c : err_class) (msg : string) (signal : option Z)
| InitUnexpected (msg : string)
| Connected (firmware : string) (polls : list poll) (e : scan_end).

Definition fatal_error (msg : string) (r : reader) : reader :=
  set_fatal (emit (Error msg true) r).

Definition loop_condition (r : reader) : bool :=
  (retry_count r <? MAX_RETRIES)%nat && negb (shutdown_requested r).

(** Lines 252-262 up to the scan: initialization succeeded, [ready] is
    emitted, the retry counter is reset and the scan loop runs. *)
Definition connect_phase (cfg : config) (fw : string) (polls : list poll)
    (r : reader) : reader :=
  scan_loop cfg polls (set_retry_count 0 (emit (Ready fw (port cfg)) r)).

(** The body of the [while] loop (lines 250-275); [true] means the loop goes
    on to its condition, [false] is a [break]. *)
Definition run_attempt (cfg : config) (a : attempt) (r : reader)
  : bool * reader :=
  match a with
  | InitRecoverable c msg signal => handle_retry c msg signal r
  | InitUnexpected msg => (false, fatal_error msg r)
  | Connected fw polls e =>
      let r2 := connect_phase cfg fw polls r in
      match e with
      | EndShutdown signum => (true, handle_shutdown signum r2)
      | EndRecoverable c msg signal => handle_retry c msg signal r2
      | EndUnexpected msg => (false, fatal_error msg r2)
      end
  end.

(** The [while] loop of [run] (lines 249-275). [None]: the environment ran
    out while the loop was still going. *)
Fixpoint run_loop (cfg : config) (env : list attempt) (r : reader)
  : option reader :=
  if negb (loop_condition r) then Some r else
  match env with
  | [] => None
  | a :: env' =>
      let (again, r1) := run_attempt cfg a r in
      if again then run_loop cfg env' r1 else Some r1
  end.

(** Lines 280-283. *)
Definition exit_code (r : reader) : Z :=
  if fatal_exit r || (MAX_RETRIES <=? retry_count r)%nat then 1 else 0.

(** [__init__] (lines 50-68) with the monotonic reading [t0]. *)
Definition initial_reader (t0 : Z) : reader :=
  {| retry_count := 0; shutdown_requested := false; fatal_exit := false;
     recent_taps := []; last_heartbeat := t0; events := []; waits := [] |}.

(** [run] (lines 239-283): the exit status and the final state. *)
Definition run (cfg : config) (t0 : Z) (env : list attempt)
  : option (Z * reader) :=
  match run_loop cfg env (initial_reader t0) with
  | Some r => Some (exit_code r, r)
  | None => None
  end.

(** [_initialize_hardware] (lines 188-214) as the sequence of operations it
    performs on the port and the driver. [ConstructDriver] is the call
    [PN532_UART(self.uart, debug=False)] of the external driver library,
    whose internal commands are outside this repository. *)
Inductive hw_action :=
| OpenSerial (port : string) (baud : Z)
| SetDTR (level : bool)
| SetRTS (level : bool)
| SleepMs (ms : Z)
| ConstructDriver
| SAMConfiguration
| FirmwareVersion.

Definition initialize_hardware (cfg : config) : list hw_action :=
  [OpenSerial (port cfg) (baud_rate cfg); SetDTR false; SetRTS false;
   SleepMs SIGNAL_STABILIZE_DELAY_MS; ConstructDriver; SAMConfiguration;
   FirmwareVersion].

(** The identifiers of the [tap] events of an event list. *)
Fixpoint taps (l : list event) : list string :=
  match l with
  | [] => []
  | Tap u :: rest => u :: taps rest
  | _ :: rest => taps rest
  end.

(** [a] occurs in [l] strictly before [b]. *)
Definition occurs_before (a b : hw_action) (l : list hw_action) : Prop :=
  exists i j, nth_error l i = Some a /\ nth_error l j = Some b /\ (i < j)%nat.

Definition default_config : config :=
  {| port := "/dev/ttyUSB0"; baud_rate := 115200; debounce_ms := 1000;
     dedup_buffer_size := 10 |}.

Definition full_buffer : list tap :=
  map (fun i => {| tap_uid := hex_upper [Z.of_nat i]; tap_time := Z.of_nat i |})
      (seq 1 10).

Definition three_failures : list attempt :=
  [InitRecoverable SerialError "could not open port" None;
   InitRecoverable PN532Error "No response" None;
   InitRecoverable PN532Error "No response" None].

Definition seen (u : list Z) (t : Z) : poll :=
  {| hb_now := t; polled := Some u; dup_now := t; rec_now := t |}.

(** Identifier [01] at time 0, ten other identifiers at 1..10 ms, and [01]
    again at 11 ms. *)
Definition evicting_polls : list poll :=
  seen [1] 0 :: map (fun i => seen [Z.of_nat i] (Z.of_nat i - 1)) (seq 2 10)
  ++ [seen [1] 11].

Definition uninterrupted_init_failure (a : attempt) : Prop :=
  exists c m, a = InitRecoverable c m None.

End NFCReader.

(** ** The other helpers of card-emulation-raw.py *)
Module RawCard.
Import FrameCodec.

(** [create_ndef_text] (lines 133-146): a bare NDEF text record; [None] when
    [len(text_bytes) + 3] is not a byte (the [append] raises). *)
Definition create_ndef_text (text_bytes : list Z) : option (list Z) :=
  let payload_length := Z.of_nat (List.length text_bytes) + 3 in
  if is_byte payload_length
  then Some ([209; 1; payload_length; 84; 2] ++ [101; 110] ++ text_bytes)
  else None.

(** The frame written by [tg_set_data] (lines 129-131). *)
Definition tg_set_data_frame (data : list Z) : option (list Z) :=
  send_command_frame 142 data.

End RawCard.

(** ** Writing the NDEF message to an NTAG (write-ndef-formatted.py) *)
Module NtagWrite.

Definition start_page : Z := 4.
Definition bytes_per_page : nat := 4.
(** The NTAG213 limit of line 125. *)
Definition max_pages : nat := 36.

(** The padding loop of lines 118-120: append [00] while the length is not a
    multiple of [bytes_per_page]. It appends at most three bytes, so
    [bytes_per_page] rounds cover every run of the loop. *)
Fixpoint pad_loop (fuel : nat) (padded : list Z) : list Z :=
  match fuel with
  | O => padded
  | S f =>
      if Nat.eqb (List.length padded mod bytes_per_page) 0 then padded
      else pad_loop f (padded ++ [0])
  end.

(** The [for i in range(pages_needed)] loop of lines 130-144, from index [i]
    with [n] iterations left. [write_ok j] tells whether the [j]-th call of
    [pn532.ntag2xx_write_block] returns without raising. Result: the
    (page, chunk) writes that succeeded, in order, and the return value. *)
Fixpoint write_pages (write_ok : nat -> bool) (padded : list Z) (i n : nat)
  : list (Z * list Z) * bool :=
  match n with
  | O => ([], true)
  | S n' =>
      let page_num := start_page + Z.of_nat i in
      let chunk := firstn bytes_per_page (skipn (i * bytes_per_page) padded) in
      if write_ok i then
        let (ws, res) := write_pages write_ok padded (S i) n' in
        ((page_num, chunk) :: ws, res)
      else ([], false)
  end.

(** [write_ndef_to_ntag] (lines 107-146). *)
Definition write_ndef_to_ntag (write_ok : nat -> bool) (ndef_message : list Z)
  : list (Z * list Z) * bool :=
  let padded := pad_loop bytes_per_page ndef_message in
  let pages_needed := (List.length padded / bytes_per_page)%nat in
  if (max_pages <? pages_needed)%nat then ([], false)
  else write_pages write_ok padded 0 pages_needed.

End NtagWrite.

(** ** Observations on the event stream of the reader *)
Module ReaderTrace.
Import NFCReader.

Definition is_tap (e : event) : bool :=
  match e with Tap _ => true | _ => false end.

Definition is_heartbeat (e : event) : bool :=
  match e with Heartbeat => true | _ => false end.

Definition count_events (f : event -> bool) (l : list event) : nat :=
  List.length (filter f l).

(** Every [tap] event of [l] comes after some [ready] event. *)
Definition taps_after_ready (l : list event) : Prop :=
  forall i u, nth_error l i = Some (Tap u) ->
  exists j fw p, (j < i)%nat /\ nth_error l j = Some (Ready fw p).

Fixpoint nondecreasing (l : list Z) : bool :=
  match l with
  | x :: ((y :: _) as rest) => (x <=? y) && nondecreasing rest
  | _ => true
  end.

(** The non-empty identifiers returned by a sequence of polls. *)
Fixpoint observed (polls : list poll) : list (list Z) :=
  match polls with
  | [] => []
  | p :: rest =>
      match polled p with
      | None | Some [] => observed rest
      | Some u => u :: observed rest
      end
  end.

(** The events a scan appends: heartbeats and taps. *)
Definition scan_event (e : event) : Prop := e = Heartbeat \/ exists u, e = Tap u.

(** The backoffs [2 ** retry_count] of [_handle_retry] below the ceiling. *)
Definition backoff (w : Z) : Prop := In w [2; 4; 8; 16].

(** The monotonic readings of a sequence of polls, in the order they are
    taken. *)
Definition readings (polls : list poll) : list Z :=
  flat_map (fun p => [hb_now p; dup_now p; rec_now p]) polls.

End ReaderTrace.

(** * Theorems *)

(** ** Frame codec *)
Section FrameProofs.
Import FrameCodec.

Lemma land255_mod (x : Z) : Z.land x 255 = x mod 256.
Proof. change 255 with (Z.ones 8). rewrite Z.land_ones by lia. reflexivity. Qed.

Lemma lcs_sum_zero (len : Z) : Z.land (len + Z.land (Z.lnot len + 1) 255) 255 = 0.
Proof.
  rewrite !land255_mod, Z.lnot_eq_pred_opp.
  rewrite Z.add_mod_idemp_r by lia.
  match goal with |- ?a mod 256 = 0 => replace a with 0 by lia end. reflexivity.
Qed.

Lemma lcs_is_byte (len : Z) : is_byte (Z.land (Z.lnot len + 1) 255) = true.
Proof.
  unfold is_byte. rewrite land255_mod.
  pose proof (Z.mod_pos_bound (Z.lnot len + 1) 256). apply andb_true_intro; split; apply Z.leb_le; lia.
Qed.

Lemma firstn_app_succ (p : list Z) (x : Z) (y : list Z) :
  firstn (S (List.length p)) (p ++ x :: y) = p ++ [x].
Proof. induction p as [|a p IH]; [reflexivity |].
  rewrite <- app_comm_cons; simpl List.length; rewrite firstn_cons, IH; reflexivity.
Qed.

Lemma firstn_app_length (p q : list Z) : firstn (List.length p) (p ++ q) = p.
Proof. induction p as [|a p IH]; [reflexivity |].
  rewrite <- app_comm_cons; simpl List.length; rewrite firstn_cons, IH; reflexivity.
Qed.

Lemma wait_preamble_hit (s : list Z) : wait_preamble (0 :: 0 :: 255 :: s) = Some s.
Proof. reflexivity. Qed.

(** Reading any frame laid out as [send_command] lays it out, whatever its
    data-checksum byte [d] holds. *)
Lemma read_response_frame (command_code d : Z) (params rest : list Z) :
  (List.length params <= 253)%nat ->
  let len := Z.of_nat (List.length params) + 2 in
  read_response
    (([0; 0; 255; len; Z.land (Z.lnot len + 1) 255; 212; command_code]
        ++ params ++ [d; 0]) ++ rest)
  = Some (command_code :: params).
Proof.
  intros Hl len.
  unfold read_response. cbn [app]. rewrite wait_preamble_hit.
  cbv iota beta. rewrite lcs_sum_zero. cbn [negb Z.eqb].
  replace (Z.to_nat len + 1)%nat with (S (S (S (List.length params))))
    by (unfold len; lia).
  rewrite <- app_assoc. cbn [app].
  rewrite !firstn_cons, firstn_app_succ.
  cbn [List.length]. rewrite length_app. cbn [List.length].
  rewrite Nat.add_1_r, Nat.eqb_refl.
  cbn [negb]. f_equal. unfold slice_1_m1.
  cbn [List.length skipn]. rewrite length_app. cbn [List.length].
  replace (S (S (List.length params + 1)) - 2)%nat
    with (S (List.length params)) by lia.
  rewrite firstn_cons. rewrite firstn_app_length. reflexivity.
Qed.

Lemma send_command_frame_ok (command_code : Z) (params : list Z) :
  is_byte command_code = true ->
  forallb is_byte params = true ->
  (List.length params <= 253)%nat ->
  let len := Z.of_nat (List.length params) + 2 in
  send_command_frame command_code params =
  Some ([0; 0; 255; len; Z.land (Z.lnot len + 1) 255; 212; command_code]
          ++ params
          ++ [Z.land (Z.lnot (212 + command_code + sum params) + 1) 255; 0]).
Proof.
  intros Hc Hp Hl len. unfold send_command_frame.
  assert (Hlen : is_byte len = true)
    by (unfold is_byte, len; apply andb_true_intro; split; apply Z.leb_le; lia).
  fold len. rewrite Hlen, Hc, Hp. reflexivity.
Qed.

Lemma list_set_app (n : nat) (v : Z) (l1 l2 : list Z) :
  (List.length l1 <= n)%nat ->
  list_set n v (l1 ++ l2) = l1 ++ list_set (n - List.length l1) v l2.
Proof.
  revert n. induction l1 as [|x l1 IH]; intros n Hn.
  - now rewrite Nat.sub_0_r.
  - destruct n as [|n]; [cbn in Hn; lia |].
    cbn [app List.length list_set]. rewrite IH by (cbn in Hn; lia). reflexivity.
Qed.

(** C1: encoding an opcode and parameter bytes that fit one frame
    ([len(params) + 2 <= 255]) and reading the frame back (followed by any
    bytes) gives exactly the opcode followed by the parameters. *)
Theorem frame_roundtrip (command_code : Z) (params rest : list Z) :
  is_byte command_code = true ->
  forallb is_byte params = true ->
  (List.length params <= 253)%nat ->
  exists frame,
    send_command_frame command_code params = Some frame /\
    read_response (frame ++ rest) = Some (command_code :: params).
Proof.
  intros Hc Hp Hl.
  rewrite (send_command_frame_ok command_code params Hc Hp Hl).
  eexists; split; [reflexivity |]. now apply read_response_frame.
Qed.

Lemma frame_roundtrip_witness :
  is_byte 20 = true /\ forallb is_byte [1; 20; 1] = true /\
  (List.length [1; 20; 1] <= 253)%nat /\
  exists frame,
    send_command_frame 20 [1; 20; 1] = Some frame /\
    read_response (frame ++ [0; 0; 255; 0; 255; 0]) = Some [20; 1; 20; 1].
Proof.
  split; [reflexivity | split; [reflexivity | split; [cbn; lia |]]].
  apply (frame_roundtrip 20 [1; 20; 1] [0; 0; 255; 0; 255; 0]);
    [reflexivity | reflexivity | cbn; lia].
Defined.

Lemma lcs_mismatch (len v : Z) :
  is_byte v = true -> v <> Z.land (Z.lnot len + 1) 255 ->
  Z.land (len + v) 255 <> 0.
Proof.
  unfold is_byte. intros Hv Hne. apply andb_true_iff in Hv as [Hv0 Hv1].
  apply Z.leb_le in Hv0, Hv1.
  rewrite !land255_mod in *. rewrite Z.lnot_eq_pred_opp in Hne.
  replace (- len - 1 + 1) with (- len) in Hne by lia.
  intro H0.
  pose proof (Z.div_mod (len + v) 256) as D1.
  pose proof (Z.div_mod (- len) 256) as D2.
  pose proof (Z.mod_pos_bound (- len) 256) as B2.
  lia.
Qed.

(** C2 (as the code behaves): replacing the length-checksum byte of a frame
    by any other byte makes [read_response] return [None]; the data-checksum
    is never checked, so replacing it by any value still returns the
    payload. *)
Theorem read_response_checksums (command_code v : Z) (params rest : list Z) :
  is_byte command_code = true ->
  forallb is_byte params = true ->
  (List.length params <= 253)%nat ->
  exists frame,
    send_command_frame command_code params = Some frame /\
    (is_byte v = true -> v <> nth 4 frame 0 ->
       read_response (list_set 4 v frame ++ rest) = None) /\
    read_response (list_set (List.length frame - 2) v frame ++ rest)
      = Some (command_code :: params).
Proof.
  intros Hc Hp Hl.
  rewrite (send_command_frame_ok command_code params Hc Hp Hl).
  eexists; split; [reflexivity | split].
  - intros Hv Hne. cbn [nth app] in Hne. cbn [list_set app].
    unfold read_response. rewrite wait_preamble_hit. cbv iota beta.
    apply lcs_mismatch in Hne; [| exact Hv].
    apply Z.eqb_neq in Hne. rewrite Hne. reflexivity.
  - rewrite app_assoc, list_set_app.
    + rewrite !length_app. cbn [List.length].
      match goal with |- context [list_set ?n _ _] => replace n with O by lia end.
      cbn [list_set].
      pose proof (read_response_frame command_code v params rest Hl) as H.
      cbv zeta in H. rewrite <- !app_assoc in H |- *. exact H.
    + rewrite !length_app. cbn [List.length]. lia.
Qed.

Lemma read_response_checksums_witness :
  is_byte 2 = true /\ forallb is_byte [] = true /\
  (List.length (@nil Z) <= 253)%nat /\
  exists frame,
    send_command_frame 2 [] = Some frame /\
    (is_byte 0 = true -> 0 <> nth 4 frame 0 ->
       read_response (list_set 4 0 frame ++ []) = None) /\
    read_response (list_set (List.length frame - 2) 0 frame ++ []) = Some [2].
Proof.
  split; [reflexivity | split; [reflexivity | split; [cbn; lia |]]].
  apply (read_response_checksums 2 0 [] []); [reflexivity | reflexivity | cbn; lia].
Defined.

(** C2 counterexample: the [GetFirmwareVersion] frame
    [00 00 FF 02 FE D4 02 2A 00] with its data-checksum [2A] replaced by [00]
    is still accepted, with the payload [02]. *)
Lemma read_response_bad_dcs_accepted :
  exists frame,
    send_command_frame 2 [] = Some frame /\
    list_set 7 0 frame <> frame /\
    read_response (list_set 7 0 frame) = Some [2].
Proof.
  exists [0; 0; 255; 2; 254; 212; 2; 42; 0].
  split; [reflexivity | split; [discriminate | reflexivity]].
Qed.

End FrameProofs.

(** ** NDEF message layout *)
Section NdefProofs.
Import Ndef.

(** C4 (as the code behaves): for a text of [L < 248] UTF-8 bytes the TLV
    message is [03 (L+7) D1 01 (L+3) 54 02 65 6E], the text, [FE]: its length
    is [L + 10], and the record-payload length byte is the TLV length minus
    4. *)
Theorem ndef_message_layout (text_bytes : list Z) :
  (List.length text_bytes < 248)%nat ->
  let L := Z.of_nat (List.length text_bytes) in
  create_ndef_message text_bytes =
    Some ([3; L + 7; 209; 1; L + 3; 84; 2; 101; 110] ++ text_bytes ++ [254]) /\
  List.length ([3; L + 7; 209; 1; L + 3; 84; 2; 101; 110] ++ text_bytes ++ [254])
    = (List.length text_bytes + 10)%nat.
Proof.
  intros HL L. split.
  - unfold create_ndef_message, create_ndef_text_record. cbn [List.length app].
    replace (Z.of_nat (S (S (S (List.length text_bytes))))) with (L + 3)
      by (unfold L; lia).
    replace (is_byte (L + 3)) with true
      by (symmetry; unfold is_byte, L; apply andb_true_intro; split;
          apply Z.leb_le; lia).
    cbn [List.length app].
    replace (Z.of_nat (S (S (S (S (S (S (S (List.length text_bytes)))))))))
      with (L + 7) by (unfold L; lia).
    replace (L + 7 <? 255) with true
      by (symmetry; apply Z.ltb_lt; unfold L; lia).
    reflexivity.
  - rewrite length_app, length_app. cbn [List.length]. lia.
Qed.

Lemma ndef_message_layout_witness :
  (List.length [104; 105] < 248)%nat /\
  create_ndef_message [104; 105] =
    Some ([3; 2 + 7; 209; 1; 2 + 3; 84; 2; 101; 110] ++ [104; 105] ++ [254]) /\
  List.length ([3; 2 + 7; 209; 1; 2 + 3; 84; 2; 101; 110] ++ [104; 105] ++ [254])
    = (List.length [104; 105] + 10)%nat.
Proof.
  split; [cbn; lia |]. apply (ndef_message_layout [104; 105]). cbn; lia.
Defined.

(** C4 counterexample: the empty text gives a 10-byte message, not 8. *)
Lemma ndef_message_empty_text :
  create_ndef_message [] = Some [3; 7; 209; 1; 3; 84; 2; 101; 110; 254] /\
  List.length [3; 7; 209; 1; 3; 84; 2; 101; 110; 254] <> (0 + 8)%nat.
Proof. split; [reflexivity | discriminate]. Qed.

End NdefProofs.

(** ** Card-emulation session *)
Section SessionProofs.
Import CardSession.




End SessionProofs.

(** ** NFCReader *)
Module ReaderProofs.
Import NFCReader.

(** *** Hardware initialization order *)

Lemma initialize_hardware_firmware_index (cfg : config) (i : nat) :
  nth_error (initialize_hardware cfg) i = Some FirmwareVersion -> i = 6%nat.
Proof.
  destruct i as [|[|[|[|[|[|[|i]]]]]]]; cbn; try discriminate; auto.
  destruct i; discriminate.
Qed.

Lemma initialize_hardware_sam_index (cfg : config) (i : nat) :
  nth_error (initialize_hardware cfg) i = Some SAMConfiguration -> i = 5%nat.
Proof.
  destruct i as [|[|[|[|[|[|[|i]]]]]]]; cbn; try discriminate; auto.
  destruct i; discriminate.
Qed.

(** C9 (as the code behaves): initialization first opens the serial port
    (at the configured port and baud rate), then drives DTR low, then RTS
    low, waits the 200 ms stabilization delay, constructs the driver,
    performs the SAM configuration and then the firmware-version query;
    these are all its steps. *)
Theorem initialize_hardware_order (cfg : config) :
  nth_error (initialize_hardware cfg) 0 = Some (OpenSerial (port cfg) (baud_rate cfg)) /\
  occurs_before (OpenSerial (port cfg) (baud_rate cfg)) (SetDTR false)
    (initialize_hardware cfg) /\
  occurs_before (SetDTR false) (SetRTS false) (initialize_hardware cfg) /\
  occurs_before (SetRTS false) (SleepMs SIGNAL_STABILIZE_DELAY_MS)
    (initialize_hardware cfg) /\
  occurs_before (SleepMs SIGNAL_STABILIZE_DELAY_MS) ConstructDriver
    (initialize_hardware cfg) /\
  occurs_before ConstructDriver SAMConfiguration (initialize_hardware cfg) /\
  occurs_before SAMConfiguration FirmwareVersion (initialize_hardware cfg) /\
  List.length (initialize_hardware cfg) = 7%nat.
Proof.
  split; [reflexivity |].
  repeat split; unfold occurs_before.
  - exists 0%nat, 1%nat; auto.
  - exists 1%nat, 2%nat; auto.
  - exists 2%nat, 3%nat; auto.
  - exists 3%nat, 4%nat; auto.
  - exists 4%nat, 5%nat; auto.
  - exists 5%nat, 6%nat; auto.
Qed.

(** C9 counterexample: the firmware-version query does not come before the
    SAM configuration. *)
Lemma initialize_hardware_sam_first :
  ~ occurs_before FirmwareVersion SAMConfiguration
      (initialize_hardware default_config).
Proof.
  intros [i [j [Hi [Hj Hlt]]]].
  apply initialize_hardware_firmware_index in Hi.
  apply initialize_hardware_sam_index in Hj. lia.
Qed.

(** *** Dedup buffer bound and eviction *)

Lemma deque_append_length {A} (m : nat) (d : list A) (x : A) :
  (List.length (deque_append m d x) <= m)%nat.
Proof. unfold deque_append. rewrite length_skipn. lia. Qed.

Lemma deque_append_full {A} (m : nat) (d : list A) (x : A) :
  List.length d = m -> (0 < m)%nat -> deque_append m d x = tl d ++ [x].
Proof.
  intros Hl Hm. unfold deque_append. rewrite length_app. cbn [List.length].
  replace (List.length d + 1 - m)%nat with 1%nat by lia.
  destruct d; cbn in *; [lia | reflexivity].
Qed.

Lemma deque_append_room {A} (m : nat) (d : list A) (x : A) :
  (List.length d < m)%nat -> deque_append m d x = d ++ [x].
Proof.
  intros Hl. unfold deque_append. rewrite length_app. cbn [List.length].
  replace (List.length d + 1 - m)%nat with 0%nat by lia. reflexivity.
Qed.

Lemma scan_iteration_recent (cfg : config) (p : poll) (r : reader) :
  recent_taps (scan_iteration cfg p r) = recent_taps r \/
  exists u t, recent_taps (scan_iteration cfg p r)
              = record_tap cfg (recent_taps r) u t.
Proof.
  unfold scan_iteration, send_heartbeat_if_needed.
  destruct (HEARTBEAT_INTERVAL_MS <=? hb_now p - last_heartbeat r);
  destruct (polled p) as [[|b u]|]; auto;
  match goal with |- context [if ?c then _ else _] => destruct c end; auto;
  right; eexists _, _; reflexivity.
Qed.

Lemma scan_loop_bound (cfg : config) (polls : list poll) (r : reader) :
  (List.length (recent_taps r) <= dedup_buffer_size cfg)%nat ->
  (List.length (recent_taps (scan_loop cfg polls r)) <= dedup_buffer_size cfg)%nat.
Proof.
  revert r. induction polls as [|p polls IH]; intros r H; [exact H |].
  apply IH. destruct (scan_iteration_recent cfg p r) as [E | [u [t E]]];
  rewrite E; [exact H | apply deque_append_length].
Qed.

Lemma handle_shutdown_fields (s : Z) (r : reader) :
  retry_count (handle_shutdown s r) = retry_count r /\
  fatal_exit (handle_shutdown s r) = fatal_exit r /\
  recent_taps (handle_shutdown s r) = recent_taps r /\
  waits (handle_shutdown s r) = waits r /\
  shutdown_requested (handle_shutdown s r) = true.
Proof.
  unfold handle_shutdown. destruct (shutdown_requested r) eqn:E; cbn; auto.
Qed.

Lemma handle_retry_ceiling (c : err_class) (m : string) (sig : option Z)
    (r : reader) :
  (MAX_RETRIES <= S (retry_count r))%nat ->
  handle_retry c m sig r =
  (false, emit (Error "Max retries reached" true)
            (set_retry_count (S (retry_count r))
               (emit (Error (error_type c ++ " error: " ++ m) false) r))).
Proof.
  intros H. unfold handle_retry. cbn [retry_count emit set_retry_count].
  apply Nat.leb_le in H. rewrite H. reflexivity.
Qed.

Lemma handle_retry_below (c : err_class) (m : string) (sig : option Z)
    (r : reader) :
  (S (retry_count r) < MAX_RETRIES)%nat ->
  let r' := snd (handle_retry c m sig r) in
  retry_count r' = S (retry_count r) /\
  waits r' = waits r ++ [2 ^ Z.of_nat (S (retry_count r))] /\
  fatal_exit r' = fatal_exit r /\
  recent_taps r' = recent_taps r /\
  fst (handle_retry c m sig r) = negb (shutdown_requested r') /\
  (sig = None -> shutdown_requested r' = shutdown_requested r).
Proof.
  intros H. unfold handle_retry. cbn [retry_count emit set_retry_count].
  replace (MAX_RETRIES <=? S (retry_count r))%nat with false
    by (symmetry; apply Nat.leb_gt; exact H).
  unfold interruptible_sleep. destruct sig as [s|]; cbn [fst snd].
  - destruct (handle_shutdown_fields s
      (add_wait (2 ^ Z.of_nat (S (retry_count r)))
        (set_retry_count (S (retry_count r))
          (emit (Error (error_type c ++ " error: " ++ m) false) r))))
      as (E1 & E2 & E3 & E4 & E5).
    rewrite E1, E2, E3, E4. cbn. repeat split; auto; discriminate.
  - cbn. repeat split; auto.
Qed.

Lemma handle_retry_recent (c : err_class) (m : string) (sig : option Z)
    (r : reader) :
  recent_taps (snd (handle_retry c m sig r)) = recent_taps r.
Proof.
  destruct (Nat.lt_ge_cases (S (retry_count r)) MAX_RETRIES) as [H | H].
  - apply (handle_retry_below c m sig r H).
  - rewrite (handle_retry_ceiling c m sig r H). reflexivity.
Qed.

Lemma run_attempt_bound (cfg : config) (a : attempt) (r : reader) :
  (List.length (recent_taps r) <= dedup_buffer_size cfg)%nat ->
  (List.length (recent_taps (snd (run_attempt cfg a r)))
     <= dedup_buffer_size cfg)%nat.
Proof.
  intros H. destruct a as [c m sig | m | fw polls e]; cbn [run_attempt].
  - now rewrite handle_retry_recent.
  - exact H.
  - assert (Hc : (List.length (recent_taps (connect_phase cfg fw polls r))
                   <= dedup_buffer_size cfg)%nat)
      by (apply scan_loop_bound; exact H).
    destruct e as [s | c m sig | m]; cbn [snd].
    + now destruct (handle_shutdown_fields s (connect_phase cfg fw polls r))
        as (_ & _ & -> & _).
    + now rewrite handle_retry_recent.
    + exact Hc.
Qed.

Lemma run_loop_bound (cfg : config) (env : list attempt) (r r' : reader) :
  (List.length (recent_taps r) <= dedup_buffer_size cfg)%nat ->
  run_loop cfg env r = Some r' ->
  (List.length (recent_taps r') <= dedup_buffer_size cfg)%nat.
Proof.
  revert r. induction env as [|a env IH]; intros r H Hrun; cbn in Hrun;
  destruct (negb (loop_condition r)); try (injection Hrun as <-; exact H);
  try discriminate.
  pose proof (run_attempt_bound cfg a r H) as Ha.
  destruct (run_attempt cfg a r) as [again r1]. cbn in Ha.
  destruct again; [exact (IH r1 Ha Hrun) | injection Hrun as <-; exact Ha].
Qed.

(** C6: recording a tap never leaves more than the configured capacity in
    the buffer, so no run of the reader ever holds more; recording into a
    full buffer (capacity at least one) drops the oldest record and appends
    the new one; below capacity nothing is dropped. *)
Theorem dedup_buffer_capacity (cfg : config) :
  (forall recent u t,
     (List.length (record_tap cfg recent u t) <= dedup_buffer_size cfg)%nat) /\
  (forall t0 env r', run_loop cfg env (initial_reader t0) = Some r' ->
     (List.length (recent_taps r') <= dedup_buffer_size cfg)%nat) /\
  (forall recent u t,
     List.length recent = dedup_buffer_size cfg -> (0 < dedup_buffer_size cfg)%nat ->
     record_tap cfg recent u t = tl recent ++ [{| tap_uid := u; tap_time := t |}]) /\
  (forall recent u t,
     (List.length recent < dedup_buffer_size cfg)%nat ->
     record_tap cfg recent u t = recent ++ [{| tap_uid := u; tap_time := t |}]).
Proof.
  split; [| split; [| split]].
  - intros. apply deque_append_length.
  - intros t0 env r' H. apply (run_loop_bound cfg env (initial_reader t0));
      [cbn; lia | exact H].
  - intros. now apply deque_append_full.
  - intros. now apply deque_append_room.
Qed.

Lemma dedup_buffer_capacity_witness :
  List.length full_buffer = dedup_buffer_size default_config /\
  record_tap default_config full_buffer "FF" 50
    = tl full_buffer ++ [{| tap_uid := "FF"; tap_time := 50 |}].
Proof.
  split; [reflexivity |].
  apply (proj1 (proj2 (proj2 (dedup_buffer_capacity default_config))));
    [reflexivity | cbn; lia].
Defined.
(** *** Retry counter, backoff and exit status *)

Lemma scan_iteration_fields (cfg : config) (p : poll) (r : reader) :
  retry_count (scan_iteration cfg p r) = retry_count r /\
  shutdown_requested (scan_iteration cfg p r) = shutdown_requested r /\
  fatal_exit (scan_iteration cfg p r) = fatal_exit r /\
  waits (scan_iteration cfg p r) = waits r.
Proof.
  unfold scan_iteration, send_heartbeat_if_needed.
  destruct (HEARTBEAT_INTERVAL_MS <=? hb_now p - last_heartbeat r);
  destruct (polled p) as [[|b u]|]; cbn; auto;
  match goal with |- context [if ?c then _ else _] => destruct c end; cbn; auto.
Qed.

Lemma scan_loop_fields (cfg : config) (polls : list poll) (r : reader) :
  retry_count (scan_loop cfg polls r) = retry_count r /\
  shutdown_requested (scan_loop cfg polls r) = shutdown_requested r /\
  fatal_exit (scan_loop cfg polls r) = fatal_exit r /\
  waits (scan_loop cfg polls r) = waits r.
Proof.
  revert r. induction polls as [|p polls IH]; intros r; [auto |].
  cbn [scan_loop]. destruct (IH (scan_iteration cfg p r)) as (A & B & C & D).
  destruct (scan_iteration_fields cfg p r) as (A' & B' & C' & D').
  rewrite A, B, C, D, A', B', C', D'. auto.
Qed.

Lemma connect_phase_fields (cfg : config) (fw : string) (polls : list poll)
    (r : reader) :
  retry_count (connect_phase cfg fw polls r) = 0%nat /\
  shutdown_requested (connect_phase cfg fw polls r) = shutdown_requested r /\
  fatal_exit (connect_phase cfg fw polls r) = fatal_exit r /\
  waits (connect_phase cfg fw polls r) = waits r.
Proof.
  unfold connect_phase.
  destruct (scan_loop_fields cfg polls
    (set_retry_count 0 (emit (Ready fw (port cfg)) r))) as (A & B & C & D).
  rewrite A, B, C, D. cbn. auto.
Qed.

Lemma init_failures_run (cfg : config) (fs : list attempt) (r : reader) :
  Forall uninterrupted_init_failure fs ->
  shutdown_requested r = false ->
  (retry_count r + List.length fs < MAX_RETRIES)%nat ->
  exists r',
    (forall rest, run_loop cfg (fs ++ rest) r = run_loop cfg rest r') /\
    retry_count r' = (retry_count r + List.length fs)%nat /\
    shutdown_requested r' = false /\
    fatal_exit r' = fatal_exit r /\
    waits r' = waits r ++ map (fun i => 2 ^ Z.of_nat (retry_count r + i))
                             (seq 1 (List.length fs)).
Proof.
  intros Hf. revert r. induction Hf as [|a fs [c [m ->]] Hf IH];
    intros r Hs Hl.
  - exists r. cbn. rewrite Nat.add_0_r, app_nil_r. auto.
  - cbn [List.length] in Hl.
    destruct (handle_retry_below c m None r ltac:(lia))
      as (A & B & C & _ & E & F).
    destruct (IH (snd (handle_retry c m None r))) as (r' & R & A' & B' & C' & D');
      [rewrite F by reflexivity; exact Hs | rewrite A; lia |].
    exists r'. split; [| repeat split].
    + intros rest. cbn [app run_loop].
      assert (Hc : loop_condition r = true)
        by (unfold loop_condition; rewrite Hs; apply andb_true_intro;
            split; [apply Nat.ltb_lt; lia | reflexivity]).
      rewrite Hc. cbn [negb run_attempt].
      destruct (handle_retry c m None r) as [again r1] eqn:Eh.
      cbn [fst snd] in *. rewrite E, F by reflexivity. rewrite Hs. cbn.
      apply R.
    + rewrite A', A. cbn [List.length]. lia.
    + exact B'.
    + rewrite C', C. reflexivity.
    + rewrite D', B, A, <- app_assoc. cbn [List.length seq app].
      rewrite <- (seq_shift (List.length fs) 1). cbn [map]. rewrite map_map.
      replace (retry_count r + 1)%nat with (S (retry_count r)) by lia.
      f_equal. f_equal. apply map_ext. intros i. do 2 f_equal. lia.
Qed.



Lemma initial_reader_run (cfg : config) (t0 : Z) (fs : list attempt) :
  Forall uninterrupted_init_failure fs ->
  (List.length fs < MAX_RETRIES)%nat ->
  exists r',
    (forall rest, run_loop cfg (fs ++ rest) (initial_reader t0)
                  = run_loop cfg rest r') /\
    retry_count r' = List.length fs /\ shutdown_requested r' = false /\
    fatal_exit r' = false /\
    waits r' = map (fun i => 2 ^ Z.of_nat i) (seq 1 (List.length fs)).
Proof.
  intros Hf Hl.
  destruct (init_failures_run cfg fs (initial_reader t0) Hf eq_refl
    ltac:(cbn; lia)) as (r' & R & A & B & C & D).
  exists r'. cbn in A, C, D. repeat split; auto.
Qed.

(** C7: a recoverable failure below the ceiling raises the attempt counter
    to [n] and requests a backoff of exactly [2^n] seconds; at the ceiling
    no wait is requested; a successful connection leaves the counter at 0,
    so the next failure waits 2 seconds; and from a fresh start the waits
    before attempts 1, 2, ... are 2, 4, ... seconds. *)
Theorem backoff_and_reset :
  (forall c m sig r,
     (S (retry_count r) < MAX_RETRIES)%nat ->
     retry_count (snd (handle_retry c m sig r)) = S (retry_count r) /\
     waits (snd (handle_retry c m sig r))
       = waits r ++ [2 ^ Z.of_nat (S (retry_count r))]) /\
  (forall c m sig r,
     (MAX_RETRIES <= S (retry_count r))%nat ->
     waits (snd (handle_retry c m sig r)) = waits r) /\
  (forall cfg fw polls r, retry_count (connect_phase cfg fw polls r) = 0%nat) /\
  (forall cfg fw polls c m sig r,
     retry_count (snd (run_attempt cfg (Connected fw polls (EndRecoverable c m sig)) r))
       = 1%nat /\
     waits (snd (run_attempt cfg (Connected fw polls (EndRecoverable c m sig)) r))
       = waits r ++ [2]) /\
  (forall cfg t0 fs,
     Forall uninterrupted_init_failure fs -> (List.length fs < MAX_RETRIES)%nat ->
     exists r',
       (forall rest, run_loop cfg (fs ++ rest) (initial_reader t0)
                     = run_loop cfg rest r') /\
       waits r' = map (fun i => 2 ^ Z.of_nat i) (seq 1 (List.length fs))).
Proof.
  split; [| split; [| split; [| split]]].
  - intros c m sig r H. destruct (handle_retry_below c m sig r H) as (A & B & _).
    auto.
  - intros c m sig r H. rewrite (handle_retry_ceiling c m sig r H). reflexivity.
  - intros. apply connect_phase_fields.
  - intros cfg fw polls c m sig r. cbn [run_attempt].
    destruct (connect_phase_fields cfg fw polls r) as (A & _ & _ & D).
    destruct (handle_retry_below c m sig (connect_phase cfg fw polls r))
      as (A' & B' & _); [rewrite A; cbv; lia |].
    rewrite A', B', A, D. auto.
  - intros cfg t0 fs Hf Hl.
    destruct (initial_reader_run cfg t0 fs Hf Hl) as (r' & R & _ & _ & _ & D).
    eauto.
Qed.

Lemma backoff_and_reset_witness :
  Forall uninterrupted_init_failure three_failures /\
  exists r',
    (forall rest, run_loop default_config (three_failures ++ rest) (initial_reader 0)
                  = run_loop default_config rest r') /\
    waits r' = [2; 4; 8].
Proof.
  assert (H : Forall uninterrupted_init_failure three_failures)
    by (repeat constructor; eexists _, _; reflexivity).
  split; [exact H |].
  exact (proj2 (proj2 (proj2 (proj2 backoff_and_reset)))
           default_config 0 three_failures H ltac:(cbv; lia)).
Defined.







(** *** Tap deduplication *)

Lemma taps_app (l1 l2 : list event) : taps (l1 ++ l2) = taps l1 ++ taps l2.
Proof.
  induction l1 as [|e l1 IH]; [reflexivity |].
  destruct e; cbn [app taps]; rewrite IH; reflexivity.
Qed.

Lemma heartbeat_fields (t : Z) (r : reader) :
  recent_taps (send_heartbeat_if_needed t r) = recent_taps r /\
  taps (events (send_heartbeat_if_needed t r)) = taps (events r).
Proof.
  unfold send_heartbeat_if_needed.
  destruct (HEARTBEAT_INTERVAL_MS <=? t - last_heartbeat r); cbn; [| auto].
  rewrite taps_app, app_nil_r. auto.
Qed.

Lemma is_duplicate_tap_spec (cfg : config) (recent : list tap)
    (uid_hex : string) (now : Z) :
  is_duplicate_tap cfg recent uid_hex now = true <->
  exists t, In t recent /\ tap_uid t = uid_hex /\ now - tap_time t < debounce_ms cfg.
Proof.
  unfold is_duplicate_tap. rewrite existsb_exists. split.
  - intros [t [Hin H]]. apply andb_true_iff in H as [H1 H2].
    apply String.eqb_eq in H1. apply Z.ltb_lt in H2. eauto.
  - intros [t (Hin & H1 & H2)]. exists t. split; [exact Hin |].
    apply andb_true_iff. split; [now apply String.eqb_eq | now apply Z.ltb_lt].
Qed.

Lemma scan_iteration_uid (cfg : config) (p : poll) (r : reader) (u : list Z) :
  polled p = Some u -> u <> [] ->
  let dup := is_duplicate_tap cfg (recent_taps r) (hex_upper u) (dup_now p) in
  recent_taps (scan_iteration cfg p r) =
    (if dup then recent_taps r
     else record_tap cfg (recent_taps r) (hex_upper u) (rec_now p)) /\
  taps (events (scan_iteration cfg p r)) =
    taps (events r) ++ (if dup then [] else [hex_upper u]).
Proof.
  intros Hp Hu dup. unfold scan_iteration. rewrite Hp.
  destruct (heartbeat_fields (hb_now p) r) as [H1 H2].
  destruct u as [|b u]; [congruence |].
  rewrite H1. fold dup. destruct dup; cbn [recent_taps events emit set_recent].
  - rewrite H1, H2, app_nil_r. auto.
  - rewrite taps_app, H2. auto.
Qed.

Lemma scan_iteration_cases (cfg : config) (p : poll) (r : reader) :
  (recent_taps (scan_iteration cfg p r) = recent_taps r /\
   taps (events (scan_iteration cfg p r)) = taps (events r)) \/
  (exists h t,
     recent_taps (scan_iteration cfg p r) = record_tap cfg (recent_taps r) h t /\
     taps (events (scan_iteration cfg p r)) = taps (events r) ++ [h]).
Proof.
  destruct (polled p) as [[|b u]|] eqn:Hp.
  - left. unfold scan_iteration. rewrite Hp. apply heartbeat_fields.
  - destruct (scan_iteration_uid cfg p r (b :: u) Hp ltac:(discriminate))
      as [H1 H2].
    destruct (is_duplicate_tap _ _ _ _).
    + left. rewrite app_nil_r in H2. auto.
    + right. eauto.
  - left. unfold scan_iteration. rewrite Hp. apply heartbeat_fields.
Qed.

Lemma deque_append_keeps {A} (m : nat) (pre post : list A) (x y : A) :
  (S (List.length post) < m)%nat ->
  exists pre', deque_append m (pre ++ x :: post) y = pre' ++ x :: post ++ [y].
Proof.
  intros H. unfold deque_append. exists (skipn
    (List.length ((pre ++ x :: post) ++ [y]) - m) pre).
  rewrite <- app_assoc, skipn_app.
  rewrite !length_app. cbn [List.length app].
  replace (List.length pre + (S (List.length post) + 1) - m
           - List.length pre)%nat with O by lia.
  reflexivity.
Qed.

Lemma deque_append_in {A} (m : nat) (d : list A) (y t : A) :
  In t (deque_append m d y) -> In t d \/ t = y.
Proof.
  unfold deque_append. intros H.
  assert (Hin : In t (d ++ [y])).
  { rewrite <- (firstn_skipn (List.length (d ++ [y]) - m) (d ++ [y])).
    apply in_or_app. now right. }
  apply in_app_or in Hin as [Hin | [<- | []]]; auto.
Qed.

Lemma scan_loop_taps_extend (cfg : config) (polls : list poll) (r : reader) :
  exists added, taps (events (scan_loop cfg polls r)) = taps (events r) ++ added.
Proof.
  revert r. induction polls as [|p polls IH]; intros r.
  - exists []. now rewrite app_nil_r.
  - cbn [scan_loop]. destruct (IH (scan_iteration cfg p r)) as [added A].
    destruct (scan_iteration_cases cfg p r) as [[_ H2] | (h & t & _ & H2)];
      rewrite A, H2; eexists; [reflexivity | rewrite <- app_assoc; reflexivity].
Qed.

Lemma scan_loop_retains (cfg : config) (polls : list poll) (r : reader)
    (x : tap) (pre post : list tap) :
  recent_taps r = pre ++ x :: post ->
  exists added,
    taps (events (scan_loop cfg polls r)) = taps (events r) ++ added /\
    ((List.length post + List.length added < dedup_buffer_size cfg)%nat ->
     exists pre' post', recent_taps (scan_loop cfg polls r) = pre' ++ x :: post' /\
       List.length post' = (List.length post + List.length added)%nat).
Proof.
  revert r pre post. induction polls as [|p polls IH]; intros r pre post Hr.
  - exists []. rewrite app_nil_r. split; [reflexivity |].
    intros _. exists pre, post. rewrite Nat.add_0_r. auto.
  - cbn [scan_loop].
    destruct (scan_iteration_cases cfg p r) as [[H1 H2] | (h & t & H1 & H2)].
    + destruct (IH (scan_iteration cfg p r) pre post ltac:(rewrite H1; exact Hr))
        as (added & A & B).
      exists added. rewrite A, H2. auto.
    + unfold record_tap in H1. rewrite Hr in H1.
      destruct (Nat.lt_ge_cases (S (List.length post)) (dedup_buffer_size cfg))
        as [Hlt | Hge].
      * destruct (deque_append_keeps (dedup_buffer_size cfg) pre post x
          {| tap_uid := h; tap_time := t |} Hlt) as [pre' E].
        rewrite E in H1.
        destruct (IH (scan_iteration cfg p r) pre' (post ++ [{| tap_uid := h; tap_time := t |}]) H1)
          as (added & A & B).
        exists (h :: added). rewrite A, H2, <- app_assoc. split; [reflexivity |].
        rewrite length_app in B. cbn [List.length] in B |- *.
        intros Hl. destruct (B ltac:(lia)) as (pre2 & post2 & E2 & L2).
        exists pre2, post2. split; [exact E2 | lia].
      * destruct (scan_loop_taps_extend cfg polls (scan_iteration cfg p r))
          as [added A].
        exists (h :: added). rewrite A, H2, <- app_assoc. split; [reflexivity |].
        cbn [List.length]. lia.
Qed.
Lemma deque_append_last {A} (m : nat) (d : list A) (y : A) :
  (0 < m)%nat -> exists pre, deque_append m d y = pre ++ [y].
Proof.
  intros Hm. unfold deque_append. rewrite skipn_app, length_app. cbn [List.length].
  exists (skipn (List.length d + 1 - m) d).
  replace (List.length d + 1 - m - List.length d)%nat with O by lia. reflexivity.
Qed.

Lemma deque_fold_suffix {A} (m : nat) (xs : list A) (d : list A) :
  exists pre, d ++ xs = pre ++ fold_left (deque_append m) xs d.
Proof.
  revert d. induction xs as [|x xs IH]; intros d.
  - exists []. rewrite app_nil_r. reflexivity.
  - cbn [fold_left]. destruct (IH (deque_append m d x)) as [pre1 E].
    exists (firstn (List.length (d ++ [x]) - m) (d ++ [x]) ++ pre1).
    rewrite <- app_assoc, <- E. unfold deque_append.
    rewrite app_assoc, firstn_skipn, <- app_assoc. reflexivity.
Qed.

Lemma deque_fold_length {A} (m : nat) (xs : list A) (d : list A) :
  xs <> [] -> (List.length (fold_left (deque_append m) xs d) <= m)%nat.
Proof.
  revert d. induction xs as [|x xs IH]; intros d H; [contradiction |].
  cbn [fold_left]. destruct xs as [|y xs].
  - apply deque_append_length.
  - apply IH. discriminate.
Qed.

Lemma suffix_elements {A} (d xs pre res : list A) :
  d ++ xs = pre ++ res -> (List.length res <= List.length xs)%nat ->
  forall t, In t res -> In t xs.
Proof.
  intros E Hl t Ht. apply app_eq_app in E as [l [[_ E] | [_ E]]].
  - subst res. rewrite length_app in Hl.
    destruct l; [exact Ht | cbn in Hl; lia].
  - subst xs. apply in_or_app. right. exact Ht.
Qed.

Lemma scan_loop_records (cfg : config) (mid : list poll) (r : reader) :
  exists recs,
    recent_taps (scan_loop cfg mid r)
      = fold_left (deque_append (dedup_buffer_size cfg)) recs (recent_taps r) /\
    taps (events (scan_loop cfg mid r)) = taps (events r) ++ map tap_uid recs.
Proof.
  revert r. induction mid as [|p mid IH]; intros r.
  - exists []. rewrite app_nil_r. auto.
  - cbn [scan_loop]. destruct (IH (scan_iteration cfg p r)) as (recs & R & T).
    destruct (scan_iteration_cases cfg p r) as [[R1 T1] | (h & t & R1 & T1)].
    + exists recs. rewrite R, T, R1, T1. auto.
    + exists ({| tap_uid := h; tap_time := t |} :: recs).
      rewrite R, T, R1, T1. unfold record_tap. cbn [fold_left map tap_uid].
      rewrite <- app_assoc. auto.
Qed.

(** C5 (as the code behaves): [is_duplicate_tap] holds exactly when some
    retained record has the identifier and [now - observedAt] below the
    window; an observation of a non-empty identifier produces a tap event
    exactly when it is not a duplicate; and once an observation has produced
    a tap event (recorded at [rec_now p1]), a later observation of the same
    identifier less than the window after that record is suppressed,
    provided fewer than capacity tap events came in between (so the record
    is still retained); while once at least capacity (at least 1) tap events
    of other identifiers have come after the records of an identifier, its
    next observation produces a tap event again, however recent those
    records are. *)
Theorem dedup_window (cfg : config) :
  (forall recent uid_hex now,
     is_duplicate_tap cfg recent uid_hex now = true <->
     exists t, In t recent /\ tap_uid t = uid_hex /\
               now - tap_time t < debounce_ms cfg) /\
  (forall p r u, polled p = Some u -> u <> [] ->
     taps (events (scan_iteration cfg p r)) =
       taps (events r) ++
       (if is_duplicate_tap cfg (recent_taps r) (hex_upper u) (dup_now p)
        then [] else [hex_upper u])) /\
  (forall r p1 mid p2 u,
     polled p1 = Some u -> u <> [] -> polled p2 = Some u ->
     is_duplicate_tap cfg (recent_taps r) (hex_upper u) (dup_now p1) = false ->
     dup_now p2 - rec_now p1 < debounce_ms cfg ->
     let r1 := scan_iteration cfg p1 r in
     let r2 := scan_loop cfg mid r1 in
     (List.length (taps (events r2))
        < List.length (taps (events r1)) + dedup_buffer_size cfg)%nat ->
     taps (events r1) = taps (events r) ++ [hex_upper u] /\
     taps (events (scan_iteration cfg p2 r2)) = taps (events r2)) /\
  (forall r mid p2 u added,
     (0 < dedup_buffer_size cfg)%nat ->
     polled p2 = Some u -> u <> [] ->
     taps (events (scan_loop cfg mid r)) = taps (events r) ++ added ->
     (dedup_buffer_size cfg <= List.length added)%nat ->
     ~ In (hex_upper u) added ->
     taps (events (scan_iteration cfg p2 (scan_loop cfg mid r)))
       = taps (events (scan_loop cfg mid r)) ++ [hex_upper u]).
Proof.
  split; [| split; [| split]].
  - apply is_duplicate_tap_spec.
  - intros p r u Hp Hu. apply (scan_iteration_uid cfg p r u Hp Hu).
  - intros r p1 mid p2 u Hp1 Hu Hp2 Hd1 Hw r1 r2 Hcount.
    destruct (scan_iteration_uid cfg p1 r u Hp1 Hu) as [R1 T1].
    rewrite Hd1 in R1, T1. fold r1 in R1, T1.
    split; [exact T1 |].
    destruct (scan_loop_taps_extend cfg mid r1) as [added0 A0].
    fold r2 in A0. rewrite A0, length_app in Hcount.
    unfold record_tap in R1.
    destruct (deque_append_last (dedup_buffer_size cfg) (recent_taps r)
      {| tap_uid := hex_upper u; tap_time := rec_now p1 |} ltac:(lia)) as [pre E].
    rewrite E in R1.
    destruct (scan_loop_retains cfg mid r1 _ pre [] R1) as (added & A & B).
    fold r2 in A, B. rewrite A0 in A. apply app_inv_head in A. subst added0.
    destruct (B ltac:(cbn; lia)) as (pre' & post' & E2 & _).
    destruct (scan_iteration_uid cfg p2 r2 u Hp2 Hu) as [_ T2].
    replace (is_duplicate_tap cfg (recent_taps r2) (hex_upper u) (dup_now p2))
      with true in T2.
    + rewrite app_nil_r in T2. exact T2.
    + symmetry. apply is_duplicate_tap_spec.
      eexists. rewrite E2. split; [apply in_or_app; right; left; reflexivity |].
      cbn. auto.
  - intros r mid p2 u added Hcap Hp2 Hu Hadd Hlen Hnot.
    destruct (scan_loop_records cfg mid r) as (recs & R & T).
    rewrite T in Hadd. apply app_inv_head in Hadd. subst added.
    rewrite length_map in Hlen.
    destruct (scan_iteration_uid cfg p2 (scan_loop cfg mid r) u Hp2 Hu) as [_ T2].
    replace (is_duplicate_tap cfg (recent_taps (scan_loop cfg mid r)) (hex_upper u)
               (dup_now p2)) with false in T2; [exact T2 |].
    symmetry. apply not_true_iff_false. intros Hd.
    apply is_duplicate_tap_spec in Hd as (t & Ht & Hid & _).
    rewrite R in Ht.
    destruct (deque_fold_suffix (dedup_buffer_size cfg) recs (recent_taps r)) as [pre E].
    assert (Hne : recs <> []) by (intros ->; cbn in Hlen; lia).
    pose proof (deque_fold_length (dedup_buffer_size cfg) recs (recent_taps r) Hne).
    apply (suffix_elements _ _ _ _ E ltac:(lia)) in Ht.
    apply Hnot. rewrite <- Hid. apply in_map. exact Ht.
Qed.

Lemma dedup_window_witness :
  polled (seen [1] 0) = Some [1] /\
  is_duplicate_tap default_config [] (hex_upper [1]) 0 = false /\
  taps (events (scan_iteration default_config (seen [1] 0) (initial_reader 0)))
    = taps (events (initial_reader 0)) ++ [hex_upper [1]] /\
  taps (events (scan_iteration default_config (seen [1] 500)
          (scan_loop default_config [seen [2] 100]
             (scan_iteration default_config (seen [1] 0) (initial_reader 0)))))
  = taps (events (scan_loop default_config [seen [2] 100]
             (scan_iteration default_config (seen [1] 0) (initial_reader 0)))) /\
  taps (events (scan_iteration default_config (seen [1] 11)
          (scan_loop default_config
             (map (fun i => seen [Z.of_nat i] (Z.of_nat i - 1)) (seq 2 10))
             (scan_iteration default_config (seen [1] 0) (initial_reader 0)))))
  = taps (events (scan_loop default_config
             (map (fun i => seen [Z.of_nat i] (Z.of_nat i - 1)) (seq 2 10))
             (scan_iteration default_config (seen [1] 0) (initial_reader 0))))
    ++ [hex_upper [1]].
Proof.
  split; [reflexivity | split; [reflexivity |]].
  destruct (proj1 (proj2 (proj2 (dedup_window default_config))) (initial_reader 0)
              (seen [1] 0) [seen [2] 100] (seen [1] 500) [1] eq_refl
              ltac:(discriminate) eq_refl eq_refl ltac:(cbn; lia)
              ltac:(vm_compute; lia)) as [H3 H4].
  split; [exact H3 | split; [exact H4 |]].
  - apply (proj2 (proj2 (proj2 (dedup_window default_config)))
             (scan_iteration default_config (seen [1] 0) (initial_reader 0))
             (map (fun i => seen [Z.of_nat i] (Z.of_nat i - 1)) (seq 2 10))
             (seen [1] 11) [1]
             ["02"; "03"; "04"; "05"; "06"; "07"; "08"; "09"; "0A"; "0B"]%string);
      [cbn; lia | reflexivity | discriminate | vm_compute; reflexivity
      | cbn; lia |].
    intros H. repeat (destruct H as [H | H]; [discriminate H |]). exact H.
Defined.

(** C5 counterexample: with the default configuration (window 1000 ms,
    capacity 10), the second observation of [01], 11 ms after the first,
    still produces a tap event: the ten taps in between evicted its record. *)
Lemma dedup_evicted_retap :
  taps (events (scan_loop default_config evicting_polls (initial_reader 0)))
    = ["01"; "02"; "03"; "04"; "05"; "06"; "07"; "08"; "09"; "0A"; "0B"; "01"]%string /\
  dup_now (seen [1] 11) - rec_now (seen [1] 0) < debounce_ms default_config.
Proof.
  split; [vm_compute; reflexivity | cbn; lia].
Qed.

(** C10: a suppressed observation is not recorded. After an observation of
    identifier [u] produced a tap event recorded at [rec_now p0] (every
    older record of [u] being no newer), any number of further observations
    of [u] less than the window after that record are all suppressed and
    leave the buffer as it was, and the first observation at least the
    window after it produces a tap event again. *)
Theorem suppressed_not_recorded (cfg : config) (r : reader) (p0 p : poll)
    (os : list poll) (u : list Z) :
  (0 < dedup_buffer_size cfg)%nat ->
  polled p0 = Some u -> u <> [] ->
  is_duplicate_tap cfg (recent_taps r) (hex_upper u) (dup_now p0) = false ->
  (forall t, In t (recent_taps r) -> tap_uid t = hex_upper u ->
             tap_time t <= rec_now p0) ->
  Forall (fun q => polled q = Some u /\
                   dup_now q - rec_now p0 < debounce_ms cfg) os ->
  polled p = Some u -> rec_now p0 + debounce_ms cfg <= dup_now p ->
  let r1 := scan_iteration cfg p0 r in
  let r2 := scan_loop cfg os r1 in
  taps (events r1) = taps (events r) ++ [hex_upper u] /\
  recent_taps r2 = recent_taps r1 /\
  taps (events r2) = taps (events r1) /\
  taps (events (scan_iteration cfg p r2)) = taps (events r2) ++ [hex_upper u].
Proof.
  intros Hcap Hp0 Hu Hd0 Hold Hos Hp Hlate r1 r2.
  destruct (scan_iteration_uid cfg p0 r u Hp0 Hu) as [R1 T1].
  rewrite Hd0 in R1, T1. fold r1 in R1, T1.
  set (x := {| tap_uid := hex_upper u; tap_time := rec_now p0 |}).
  destruct (deque_append_last (dedup_buffer_size cfg) (recent_taps r) x Hcap)
    as [pre E].
  unfold record_tap in R1. fold x in R1. rewrite E in R1.
  assert (Hmid : recent_taps r2 = recent_taps r1 /\
                 taps (events r2) = taps (events r1)).
  { unfold r2. clear Hp Hlate. generalize r1 R1. clear r1 R1 T1 r2.
    induction Hos as [|q os [Hq Hw] _ IH]; intros r1 R1; [auto |].
    cbn [scan_loop].
    destruct (scan_iteration_uid cfg q r1 u Hq Hu) as [Rq Tq].
    replace (is_duplicate_tap cfg (recent_taps r1) (hex_upper u) (dup_now q))
      with true in Rq, Tq.
    - rewrite app_nil_r in Tq. rewrite <- Rq, <- Tq. apply IH. rewrite Rq. exact R1.
    - symmetry. apply is_duplicate_tap_spec. exists x. rewrite R1.
      split; [apply in_or_app; right; left; reflexivity |]. cbn. auto. }
  destruct Hmid as [M1 M2].
  split; [exact T1 | split; [exact M1 | split; [exact M2 |]]].
  destruct (scan_iteration_uid cfg p r2 u Hp Hu) as [_ T2].
  replace (is_duplicate_tap cfg (recent_taps r2) (hex_upper u) (dup_now p))
    with false in T2; [exact T2 |].
  symmetry. apply not_true_iff_false. rewrite is_duplicate_tap_spec.
  intros (t & Hin & Hid & Hlt). rewrite M1, R1, <- E in Hin.
  apply deque_append_in in Hin as [Hin | ->].
  - specialize (Hold t Hin Hid). lia.
  - cbn in Hlt. lia.
Qed.

Lemma suppressed_not_recorded_witness :
  Forall (fun q => polled q = Some [1] /\
                   dup_now q - rec_now (seen [1] 0) < debounce_ms default_config)
    [seen [1] 300; seen [1] 600; seen [1] 900] /\
  taps (events (scan_iteration default_config (seen [1] 1000)
          (scan_loop default_config [seen [1] 300; seen [1] 600; seen [1] 900]
             (scan_iteration default_config (seen [1] 0) (initial_reader 0)))))
  = taps (events (scan_loop default_config [seen [1] 300; seen [1] 600; seen [1] 900]
             (scan_iteration default_config (seen [1] 0) (initial_reader 0))))
    ++ [hex_upper [1]].
Proof.
  assert (H : Forall (fun q => polled q = Some [1] /\
                 dup_now q - rec_now (seen [1] 0) < debounce_ms default_config)
                [seen [1] 300; seen [1] 600; seen [1] 900])
    by (repeat constructor; cbn; lia).
  split; [exact H |].
  apply (suppressed_not_recorded default_config (initial_reader 0) (seen [1] 0)
           (seen [1] 1000) [seen [1] 300; seen [1] 600; seen [1] 900] [1]);
    [cbv; lia | reflexivity | discriminate | reflexivity
    | intros t [] | exact H | reflexivity | cbn; lia].
Defined.
End ReaderProofs.

(** * Further properties of the code *)

(** ** Frame codec: resynchronisation, acknowledgement frames, truncation *)
Section FrameExtras.
Import FrameCodec.

Lemma wait_preamble_skip (pre s : list Z) :
  Forall (fun b => b <> 0) pre -> wait_preamble (pre ++ s) = wait_preamble s.
Proof.
  induction 1 as [|b pre Hb _ IH]; [reflexivity |].
  cbn [app wait_preamble]. apply Z.eqb_neq in Hb. rewrite Hb. exact IH.
Qed.

(** Reading a frame laid out as the chip lays it out, whatever its
    direction byte [tfi] and data-checksum byte [d], followed by any bytes. *)
Lemma read_response_layout (tfi command_code d : Z) (params rest : list Z) :
  (List.length params <= 253)%nat ->
  let len := Z.of_nat (List.length params) + 2 in
  read_response ([0; 0; 255; len; Z.land (Z.lnot len + 1) 255; tfi; command_code]
                   ++ params ++ d :: rest)
  = Some (command_code :: params).
Proof.
  intros Hl len.
  unfold read_response. cbn [app]. rewrite wait_preamble_hit.
  cbv iota beta. rewrite lcs_sum_zero. cbn [negb Z.eqb].
  replace (Z.to_nat len + 1)%nat with (S (S (S (List.length params))))
    by (unfold len; lia).
  rewrite !firstn_cons, firstn_app_succ.
  cbn [List.length]. rewrite length_app. cbn [List.length].
  rewrite Nat.add_1_r, Nat.eqb_refl.
  cbn [negb]. f_equal. unfold slice_1_m1.
  cbn [List.length skipn]. rewrite length_app. cbn [List.length].
  replace (S (S (List.length params + 1)) - 2)%nat
    with (S (List.length params)) by lia.
  rewrite firstn_cons. rewrite firstn_app_length. reflexivity.
Qed.

(** Bytes other than [00] before a frame are skipped: [read_response] reads
    [pre ++ s] exactly as it reads [s]. *)
Theorem read_response_skips_noise (pre s : list Z) :
  Forall (fun b => b <> 0) pre -> read_response (pre ++ s) = read_response s.
Proof. intros H. unfold read_response. rewrite (wait_preamble_skip pre s H). reflexivity. Qed.

Lemma read_response_skips_noise_witness :
  Forall (fun b => b <> 0) [255; 213; 7] /\
  read_response ([255; 213; 7] ++ [0; 0; 255; 2; 254; 213; 3; 40; 0])
  = read_response [0; 0; 255; 2; 254; 213; 3; 40; 0].
Proof.
  assert (H : Forall (fun b => b <> 0) [255; 213; 7])
    by (repeat constructor; discriminate).
  split; [exact H | exact (read_response_skips_noise _ _ H)].
Defined.

(** The PN532 acknowledgement frame [00 00 FF 00 FF 00] fails the length
    check ([00 + FF] is not [0] modulo 256): whatever follows it,
    [read_response] returns [None] and never reaches the next frame. *)
Theorem read_response_ack_prefix (s : list Z) :
  read_response ([0; 0; 255; 0; 255; 0] ++ s) = None.
Proof. reflexivity. Qed.

(** One extra [00] before a preamble makes the scan consume [00 00] as the
    two bytes after the first [00]; the preamble is missed and scanning
    goes on after it. *)
Theorem read_response_misaligned_preamble (s : list Z) :
  read_response (0 :: 0 :: 0 :: 255 :: s) = read_response s.
Proof. reflexivity. Qed.

(** A frame cut before its data-checksum byte (fewer bytes than its length
    declares) is rejected; a frame missing only its postamble is accepted,
    since the postamble is never read. *)
Theorem read_response_truncated (tfi command_code d : Z) (params : list Z)
    (k : nat) :
  (List.length params <= 253)%nat ->
  let len := Z.of_nat (List.length params) + 2 in
  let frame := [0; 0; 255; len; Z.land (Z.lnot len + 1) 255; tfi; command_code]
                 ++ params ++ [d; 0] in
  ((k < List.length frame - 1)%nat -> read_response (firstn k frame) = None) /\
  read_response (firstn (List.length frame - 1) frame)
    = Some (command_code :: params).
Proof.
  intros Hl len frame.
  assert (Hfl : List.length frame = (List.length params + 9)%nat)
    by (unfold frame; rewrite !length_app; cbn; lia).
  split.
  - intros Hk. rewrite Hfl in Hk.
    destruct k as [|[|[|[|[|k]]]]]; try reflexivity.
    unfold frame. cbn [app firstn]. unfold read_response. rewrite wait_preamble_hit.
    cbv iota beta. rewrite lcs_sum_zero. cbn [negb Z.eqb].
    match goal with
    | |- (if negb (Nat.eqb ?a ?b) then _ else _) = _ =>
        destruct (Nat.eqb_spec a b) as [E | E]; [exfalso | reflexivity]
    end.
    rewrite !length_firstn in E. cbn [List.length] in E. rewrite length_app in E.
    cbn [List.length] in E. unfold len in E. lia.
  - rewrite Hfl. unfold frame. rewrite firstn_app. cbn [List.length].
    replace (List.length params + 9 - 1 - 7)%nat with (S (List.length params)) by lia.
    rewrite firstn_app_succ, firstn_all2 by (cbn; lia).
    exact (read_response_layout tfi command_code d params [] Hl).
Qed.

Lemma read_response_truncated_witness :
  (List.length [50; 1; 6; 7] <= 253)%nat /\
  ((8 < List.length ([0; 0; 255; 6; 250; 213; 3] ++ [50; 1; 6; 7] ++ [234; 0]) - 1)%nat ->
   read_response (firstn 8 ([0; 0; 255; 6; 250; 213; 3] ++ [50; 1; 6; 7] ++ [234; 0]))
   = None) /\
  read_response (firstn (List.length ([0; 0; 255; 6; 250; 213; 3] ++ [50; 1; 6; 7]
                                      ++ [234; 0]) - 1)
                   ([0; 0; 255; 6; 250; 213; 3] ++ [50; 1; 6; 7] ++ [234; 0]))
  = Some [3; 50; 1; 6; 7].
Proof.
  split; [cbn; lia |].
  exact (read_response_truncated 213 3 234 [50; 1; 6; 7] 8 ltac:(cbn; lia)).
Defined.

End FrameExtras.

(** ** Replies of the card-emulation session on the wire *)
Section SessionExtras.
Import FrameCodec CardSession RawCard.

Lemma apdu_reply_shape (ndef_msg cmd resp : list Z) :
  apdu_reply ndef_msg cmd = Some resp ->
  resp = [144; 0] \/ resp = firstn 50 ndef_msg ++ [144; 0] \/ resp = [106; 130].
Proof.
  unfold apdu_reply. destruct (strip_status cmd) as [|cla [|ins t]]; try discriminate.
  intros H; injection H as <-.
  destruct (ins =? 164); [auto |]. destruct (ins =? 176); auto.
Qed.

(** Every reply the session builds (from an NDEF string of bytes) fits one
    frame: [tg_set_data] never raises on it, and its frame reads back as
    [8E] followed by the reply. *)
Theorem session_reply_frames (ndef_msg cmd resp rest : list Z) :
  forallb is_byte ndef_msg = true ->
  apdu_reply ndef_msg cmd = Some resp ->
  exists frame, tg_set_data_frame resp = Some frame /\
    read_response (frame ++ rest) = Some (142 :: resp).
Proof.
  intros Hb Ha.
  assert (Hr : forallb is_byte resp = true /\ (List.length resp <= 253)%nat).
  { destruct (apdu_reply_shape _ _ _ Ha) as [-> | [-> | ->]];
      [split; [reflexivity | cbn; lia] | | split; [reflexivity | cbn; lia]].
    rewrite forallb_app, length_app. split.
    - apply andb_true_intro; split; [| reflexivity].
      rewrite <- (firstn_skipn 50 ndef_msg), forallb_app in Hb.
      apply andb_true_iff in Hb. apply Hb.
    - rewrite length_firstn. cbn [List.length]. lia. }
  destruct Hr as [Hr Hl].
  unfold tg_set_data_frame. rewrite (send_command_frame_ok 142 resp eq_refl Hr Hl).
  eexists; split; [reflexivity |]. now apply read_response_frame.
Qed.

Lemma session_reply_frames_witness :
  forallb is_byte ndef60 = true /\
  apdu_reply ndef60 [0; 0; 176; 0; 0] = Some (firstn 50 ndef60 ++ [144; 0]) /\
  exists frame, tg_set_data_frame (firstn 50 ndef60 ++ [144; 0]) = Some frame /\
    read_response (frame ++ []) = Some (142 :: firstn 50 ndef60 ++ [144; 0]).
Proof.
  split; [reflexivity | split; [reflexivity |]].
  apply (session_reply_frames ndef60 [0; 0; 176; 0; 0]); reflexivity.
Defined.

End SessionExtras.

(** ** NDEF records and messages for every text length *)
Section NdefExtras.
Import Ndef RawCard.

Lemma is_byte_range (v : Z) : 0 <= v <= 255 -> is_byte v = true.
Proof. intros H. unfold is_byte. apply andb_true_intro; split; apply Z.leb_le; lia. Qed.

Lemma is_byte_above (v : Z) : 255 < v -> is_byte v = false.
Proof. intros H. unfold is_byte. apply andb_false_intro2. apply Z.leb_gt. lia. Qed.

(** The two shapes of [create_ndef_message]. *)
Lemma create_ndef_message_cases (text_bytes msg : list Z) :
  create_ndef_message text_bytes = Some msg ->
  let L := Z.of_nat (List.length text_bytes) in
  ((List.length text_bytes < 248)%nat /\
   msg = [3; L + 7; 209; 1; L + 3; 84; 2; 101; 110] ++ text_bytes ++ [254]) \/
  ((248 <= List.length text_bytes <= 252)%nat /\
   msg = [3; 255; (L + 7) / 256; (L + 7) mod 256; 209; 1; L + 3; 84; 2; 101; 110]
           ++ text_bytes ++ [254]).
Proof.
  intros H L. unfold create_ndef_message, create_ndef_text_record in H.
  cbn [List.length app] in H.
  replace (Z.of_nat (S (S (S (List.length text_bytes))))) with (L + 3)
    in H by (unfold L; lia).
  destruct (Z.le_gt_cases (L + 3) 255) as [Hs | Hs].
  - rewrite is_byte_range in H by (unfold L; lia).
    cbn [List.length app] in H.
    replace (Z.of_nat (S (S (S (S (S (S (S (List.length text_bytes)))))))))
      with (L + 7) in H by (unfold L; lia).
    destruct (Z.ltb_spec (L + 7) 255) as [H1 | H1].
    + left. injection H as <-. split; [unfold L in H1; lia | reflexivity].
    + replace (L + 7 <? 65536) with true in H
        by (symmetry; apply Z.ltb_lt; lia).
      right. injection H as <-. split; [unfold L in *; lia |].
      rewrite Z.shiftr_div_pow2 by lia. rewrite land255_mod. reflexivity.
  - rewrite is_byte_above in H by exact Hs. discriminate.
Qed.

(** The bare record of card-emulation-raw.py and the record of
    write-ndef-formatted.py are the same bytes for every text, and both
    exist exactly for texts of at most 252 bytes. *)
Theorem create_ndef_text_agrees (text_bytes : list Z) :
  create_ndef_text text_bytes = create_ndef_text_record text_bytes /\
  (create_ndef_text text_bytes <> None <-> (List.length text_bytes <= 252)%nat).
Proof.
  unfold create_ndef_text, create_ndef_text_record. cbn [List.length app].
  replace (Z.of_nat (S (S (S (List.length text_bytes)))))
    with (Z.of_nat (List.length text_bytes) + 3) by lia.
  split; [reflexivity |].
  destruct (Nat.le_gt_cases (List.length text_bytes) 252) as [H | H].
  - rewrite is_byte_range by lia. split; [auto | discriminate].
  - rewrite is_byte_above by lia. split; [intros C; contradiction C; reflexivity | lia].
Qed.

(** For texts of 248 to 252 bytes the record is 255 to 259 bytes long and
    the TLV uses the three-byte length [FF hi lo]; the message is [L + 12]
    bytes long. *)
Theorem ndef_message_long_form (text_bytes : list Z) :
  (248 <= List.length text_bytes <= 252)%nat ->
  let L := Z.of_nat (List.length text_bytes) in
  create_ndef_message text_bytes =
    Some ([3; 255; (L + 7) / 256; (L + 7) mod 256; 209; 1; L + 3; 84; 2; 101; 110]
            ++ text_bytes ++ [254]) /\
  List.length ([3; 255; (L + 7) / 256; (L + 7) mod 256; 209; 1; L + 3; 84; 2; 101; 110]
                 ++ text_bytes ++ [254]) = (List.length text_bytes + 12)%nat.
Proof.
  intros HL L.
  destruct (create_ndef_message text_bytes) as [msg |] eqn:E.
  - destruct (create_ndef_message_cases text_bytes msg E) as [[H _] | [_ ->]];
      [lia |].
    split; [reflexivity |]. rewrite !length_app. cbn. lia.
  - exfalso. unfold create_ndef_message, create_ndef_text_record in E.
    cbn [List.length app] in E.
    rewrite is_byte_range in E by lia. cbn [List.length app] in E.
    destruct (_ <? 255); [discriminate |].
    replace (Z.of_nat _ <? 65536) with true in E
      by (symmetry; apply Z.ltb_lt; lia). discriminate.
Qed.

Lemma ndef_message_long_form_witness :
  (248 <= List.length (repeat 97%Z 250) <= 252)%nat /\
  create_ndef_message (repeat 97 250) =
    Some ([3; 255; (250 + 7) / 256; (250 + 7) mod 256; 209; 1; 250 + 3; 84; 2; 101; 110]
            ++ repeat 97 250 ++ [254]) /\
  List.length ([3; 255; (250 + 7) / 256; (250 + 7) mod 256; 209; 1; 250 + 3; 84; 2;
                 101; 110] ++ repeat 97 250 ++ [254])
   = (List.length (repeat 97%Z 250) + 12)%nat.
Proof.
  split; [rewrite repeat_length; lia |].
  exact (ndef_message_long_form (repeat 97 250) ltac:(rewrite repeat_length; lia)).
Defined.

(** [create_ndef_message] fails (the one-byte payload length overflows)
    exactly for texts of 253 bytes or more. *)
Theorem ndef_message_too_long (text_bytes : list Z) :
  create_ndef_message text_bytes = None <-> (253 <= List.length text_bytes)%nat.
Proof.
  split.
  - intros E. destruct (Nat.le_gt_cases 253 (List.length text_bytes)) as [H | H];
      [exact H | exfalso].
    unfold create_ndef_message, create_ndef_text_record in E.
    cbn [List.length app] in E.
    rewrite is_byte_range in E by lia. cbn [List.length app] in E.
    destruct (_ <? 255); [discriminate |].
    replace (Z.of_nat _ <? 65536) with true in E
      by (symmetry; apply Z.ltb_lt; lia). discriminate.
  - intros H. unfold create_ndef_message, create_ndef_text_record.
    cbn [List.length app]. rewrite is_byte_above by lia. reflexivity.
Qed.

Lemma ndef_message_too_long_witness :
  (253 <= List.length (repeat 97%Z 253))%nat /\ create_ndef_message (repeat 97 253) = None.
Proof.
  assert (H : (253 <= List.length (repeat 97%Z 253))%nat) by (rewrite repeat_length; lia).
  split; [exact H | exact (proj2 (ndef_message_too_long _) H)].
Defined.

End NdefExtras.

(** ** Writing the NDEF message to an NTAG *)
Section NtagExtras.
Import Ndef NtagWrite.

Lemma pad_arith (n : nat) :
  ((n + (4 - n mod 4) mod 4) mod 4 = 0 /\
   (n + (4 - n mod 4) mod 4) / 4 = (n + 3) / 4 /\
   (4 - n mod 4) mod 4 < 4)%nat.
Proof. repeat split; lia. Qed.

Lemma pad_loop_spec (fuel : nat) (m : list Z) :
  ((4 - List.length m mod 4) mod 4 <= fuel)%nat ->
  pad_loop fuel m = m ++ repeat 0 ((4 - List.length m mod 4) mod 4).
Proof.
  revert m. induction fuel as [|f IH]; intros m H.
  - cbn [pad_loop]. replace ((4 - List.length m mod 4) mod 4)%nat with 0%nat by lia.
    now rewrite app_nil_r.
  - cbn [pad_loop]. unfold bytes_per_page.
    destruct (Nat.eqb_spec (List.length m mod 4) 0) as [E | E].
    + rewrite E. cbn. now rewrite app_nil_r.
    + rewrite IH by (rewrite length_app; cbn [List.length]; lia).
      rewrite <- app_assoc. f_equal. rewrite length_app. cbn [List.length].
      replace ((4 - List.length m mod 4) mod 4)%nat
        with (S ((4 - (List.length m + 1) mod 4) mod 4)) by lia.
      reflexivity.
Qed.

Lemma write_pages_all (ok : nat -> bool) (padded : list Z) (i n : nat) :
  (forall j, (i <= j < i + n)%nat -> ok j = true) ->
  write_pages ok padded i n =
  (map (fun j => (start_page + Z.of_nat j, firstn 4 (skipn (j * 4) padded)))
       (seq i n), true).
Proof.
  revert i. induction n as [|n IH]; intros i H; [reflexivity |].
  cbn [write_pages]. rewrite H by lia. rewrite IH by (intros; apply H; lia).
  reflexivity.
Qed.

Lemma write_pages_fail (ok : nat -> bool) (padded : list Z) (i n k : nat) :
  (k < n)%nat -> (forall j, (i <= j < i + k)%nat -> ok j = true) ->
  ok (i + k)%nat = false ->
  write_pages ok padded i n =
  (map (fun j => (start_page + Z.of_nat j, firstn 4 (skipn (j * 4) padded)))
       (seq i k), false).
Proof.
  revert i n. induction k as [|k IH]; intros i n Hk H Hf.
  - destruct n as [|n]; [lia |]. cbn [write_pages].
    rewrite Nat.add_0_r in Hf. rewrite Hf. reflexivity.
  - destruct n as [|n]; [lia |]. cbn [write_pages]. rewrite H by lia.
    rewrite (IH (S i) n); [reflexivity | lia | intros; apply H; lia |].
    replace (S i + k)%nat with (i + S k)%nat by lia. exact Hf.
Qed.

Lemma firstn_plus (a b : nat) (x : list Z) :
  firstn (a + b) x = firstn a x ++ firstn b (skipn a x).
Proof.
  revert x. induction a as [|a IH]; intros x; [reflexivity |].
  destruct x as [|y x]; [now rewrite !firstn_nil | cbn; now rewrite IH].
Qed.

Lemma concat_pages (l : list Z) (i n : nat) :
  concat (map (fun j => firstn 4 (skipn (j * 4) l)) (seq i n))
  = firstn (n * 4) (skipn (i * 4) l).
Proof.
  revert i. induction n as [|n IH]; intros i; [reflexivity |].
  cbn [seq map concat]. rewrite IH.
  replace (S n * 4)%nat with (4 + n * 4)%nat by lia. rewrite firstn_plus.
  f_equal. rewrite skipn_skipn. f_equal; lia.
Qed.

Lemma firstn_seq_le (k s n : nat) : (k <= n)%nat -> firstn k (seq s n) = seq s k.
Proof.
  revert s n. induction k as [|k IH]; intros s n H; [reflexivity |].
  destruct n as [|n]; [lia |]. cbn [seq firstn]. rewrite IH by lia. reflexivity.
Qed.

(** What [write_ndef_to_ntag] does when the message fits and no write
    raises. *)
Lemma write_ndef_result (ok : nat -> bool) (m : list Z) :
  (List.length m <= 144)%nat ->
  (forall j, (j < (List.length m + 3) / 4)%nat -> ok j = true) ->
  write_ndef_to_ntag ok m =
  (map (fun j => (start_page + Z.of_nat j,
                  firstn 4 (skipn (j * 4) (m ++ repeat 0 ((4 - List.length m mod 4) mod 4)))))
       (seq 0 ((List.length m + 3) / 4)), true).
Proof.
  intros Hm Hok. unfold write_ndef_to_ntag.
  rewrite pad_loop_spec by (unfold bytes_per_page; lia).
  rewrite length_app, repeat_length. unfold bytes_per_page, max_pages.
  replace ((List.length m + (4 - List.length m mod 4) mod 4) / 4)%nat
    with ((List.length m + 3) / 4)%nat by lia.
  replace ((36 <? (List.length m + 3) / 4)%nat) with false
    by (symmetry; apply Nat.ltb_ge; lia).
  apply write_pages_all. intros j Hj. apply Hok. lia.
Qed.

Lemma written_bytes (m : list Z) :
  concat (map snd (map (fun j => (start_page + Z.of_nat j,
               firstn 4 (skipn (j * 4) (m ++ repeat 0 ((4 - List.length m mod 4) mod 4)))))
             (seq 0 ((List.length m + 3) / 4))))
  = m ++ repeat 0 ((4 - List.length m mod 4) mod 4).
Proof.
  rewrite map_map. cbn [snd]. rewrite concat_pages. cbn [skipn Nat.mul].
  apply firstn_all2. rewrite length_app, repeat_length. lia.
Qed.

Lemma write_ndef_rejects (ok : nat -> bool) (m : list Z) :
  (144 < List.length m)%nat -> write_ndef_to_ntag ok m = ([], false).
Proof.
  intros H. unfold write_ndef_to_ntag.
  rewrite pad_loop_spec by (unfold bytes_per_page; lia).
  rewrite length_app, repeat_length. unfold bytes_per_page, max_pages.
  replace ((36 <? _)%nat) with true by (symmetry; apply Nat.ltb_lt; lia).
  reflexivity.
Qed.

(** The padding loop appends fewer than four [00] bytes, and exactly as
    many as make the length a multiple of the page size. *)
Theorem pad_loop_pads (m : list Z) :
  exists k, pad_loop bytes_per_page m = m ++ repeat 0 k /\ (k < 4)%nat /\
            ((List.length m + k) mod 4 = 0)%nat.
Proof.
  exists ((4 - List.length m mod 4) mod 4)%nat.
  split; [apply pad_loop_spec; unfold bytes_per_page; lia | lia].
Qed.

(** A message of at most 144 bytes (36 pages), with no write raising, is
    written in full: one 4-byte chunk to each of the pages 4, 5, ... up to
    the number of pages the padded message needs, the chunks together
    being the message followed by its padding, and the result is [True]. *)
Theorem write_ndef_complete (ok : nat -> bool) (m : list Z) :
  (List.length m <= 144)%nat ->
  (forall j, (j < (List.length m + 3) / 4)%nat -> ok j = true) ->
  snd (write_ndef_to_ntag ok m) = true /\
  map fst (fst (write_ndef_to_ntag ok m))
    = map (fun j => 4 + Z.of_nat j) (seq 0 ((List.length m + 3) / 4)) /\
  Forall (fun w => List.length (snd w) = 4%nat) (fst (write_ndef_to_ntag ok m)) /\
  concat (map snd (fst (write_ndef_to_ntag ok m)))
    = m ++ repeat 0 ((4 - List.length m mod 4) mod 4).
Proof.
  intros Hm Hok. rewrite (write_ndef_result ok m Hm Hok). cbn [fst snd].
  split; [reflexivity | split; [| split]].
  - rewrite map_map. reflexivity.
  - apply Forall_forall. intros w Hw. apply in_map_iff in Hw as (j & <- & Hj).
    apply in_seq in Hj. cbn [snd].
    rewrite length_firstn, length_skipn, length_app, repeat_length. lia.
  - apply written_bytes.
Qed.

Lemma write_ndef_complete_witness :
  (List.length [3; 7; 209; 1; 3; 84; 2; 101; 110; 254] <= 144)%nat /\
  (forall j, (j < (List.length [3; 7; 209; 1; 3; 84; 2; 101; 110; 254] + 3) / 4)%nat ->
     (fun _ : nat => true) j = true) /\
  snd (write_ndef_to_ntag (fun _ => true) [3; 7; 209; 1; 3; 84; 2; 101; 110; 254]) = true /\
  map fst (fst (write_ndef_to_ntag (fun _ => true) [3; 7; 209; 1; 3; 84; 2; 101; 110; 254]))
    = map (fun j => 4 + Z.of_nat j)
          (seq 0 ((List.length [3; 7; 209; 1; 3; 84; 2; 101; 110; 254] + 3) / 4)) /\
  Forall (fun w => List.length (snd w) = 4%nat)
    (fst (write_ndef_to_ntag (fun _ => true) [3; 7; 209; 1; 3; 84; 2; 101; 110; 254])) /\
  concat (map snd (fst (write_ndef_to_ntag (fun _ => true)
                          [3; 7; 209; 1; 3; 84; 2; 101; 110; 254])))
    = [3; 7; 209; 1; 3; 84; 2; 101; 110; 254]
        ++ repeat 0 ((4 - List.length [3; 7; 209; 1; 3; 84; 2; 101; 110; 254] mod 4) mod 4).
Proof.
  split; [cbn; lia | split; [intros; reflexivity |]].
  apply (write_ndef_complete (fun _ => true) [3; 7; 209; 1; 3; 84; 2; 101; 110; 254]);
    [cbn; lia | intros; reflexivity].
Defined.

(** A message longer than 144 bytes (more than 36 pages once padded) is
    refused: nothing is written and the result is [False]. *)
Theorem write_ndef_size_limit (ok : nat -> bool) (m : list Z) :
  (144 < List.length m)%nat -> write_ndef_to_ntag ok m = ([], false).
Proof. apply write_ndef_rejects. Qed.

Lemma write_ndef_size_limit_witness :
  (144 < List.length (repeat 0%Z 145))%nat /\
  write_ndef_to_ntag (fun _ => true) (repeat 0 145) = ([], false).
Proof.
  assert (H : (144 < List.length (repeat 0%Z 145))%nat) by (rewrite repeat_length; lia).
  split; [exact H | exact (write_ndef_size_limit _ _ H)].
Defined.

(** When the write of page [4 + i] raises (the earlier ones having
    succeeded), the function returns [False] at once: exactly the writes of
    pages [4 .. 3 + i] have been made, as in a complete write, and no later
    page is written. *)
Theorem write_ndef_first_failure (ok : nat -> bool) (m : list Z) (i : nat) :
  (List.length m <= 144)%nat -> (i < (List.length m + 3) / 4)%nat ->
  (forall j, (j < i)%nat -> ok j = true) -> ok i = false ->
  write_ndef_to_ntag ok m
  = (firstn i (fst (write_ndef_to_ntag (fun _ => true) m)), false).
Proof.
  intros Hm Hi Hok Hf.
  rewrite (write_ndef_result (fun _ => true) m Hm (fun _ _ => eq_refl)). cbn [fst].
  unfold write_ndef_to_ntag.
  rewrite pad_loop_spec by (unfold bytes_per_page; lia).
  rewrite length_app, repeat_length. unfold bytes_per_page, max_pages.
  replace ((List.length m + (4 - List.length m mod 4) mod 4) / 4)%nat
    with ((List.length m + 3) / 4)%nat by lia.
  replace ((36 <? (List.length m + 3) / 4)%nat) with false
    by (symmetry; apply Nat.ltb_ge; lia).
  rewrite (write_pages_fail ok _ 0 _ i Hi) by (cbn; auto; intros; apply Hok; lia).
  rewrite firstn_map, firstn_seq_le by lia. reflexivity.
Qed.

Lemma write_ndef_first_failure_witness :
  (List.length (repeat 7%Z 20) <= 144)%nat /\
  (2 < (List.length (repeat 7%Z 20) + 3) / 4)%nat /\
  (forall j, (j < 2)%nat -> (fun j => negb (Nat.eqb j 2)) j = true) /\
  (fun j => negb (Nat.eqb j 2)) 2%nat = false /\
  write_ndef_to_ntag (fun j => negb (Nat.eqb j 2)) (repeat 7 20)
  = (firstn 2 (fst (write_ndef_to_ntag (fun _ => true) (repeat 7 20))), false).
Proof.
  assert (H : forall j, (j < 2)%nat -> (fun j => negb (Nat.eqb j 2)) j = true)
    by (intros [|[|[|j]]] Hj; cbn; [reflexivity | reflexivity | lia | lia]).
  split; [rewrite repeat_length; lia | split; [rewrite repeat_length; cbn; lia |]].
  split; [exact H | split; [reflexivity |]].
  apply write_ndef_first_failure;
    [rewrite repeat_length; lia | rewrite repeat_length; cbn; lia | exact H | reflexivity].
Defined.

(** Composed with [create_ndef_message]: the message of a text of more than
    134 bytes is refused without any write, and the message of a text of at
    most 134 bytes, with no write raising, is written and its bytes are
    found again at the start of the written pages. *)
Theorem ndef_text_fits_ntag (ok : nat -> bool) (text_bytes msg : list Z) :
  create_ndef_message text_bytes = Some msg ->
  ((134 < List.length text_bytes)%nat -> write_ndef_to_ntag ok msg = ([], false)) /\
  ((List.length text_bytes <= 134)%nat -> (forall j, ok j = true) ->
     snd (write_ndef_to_ntag ok msg) = true /\
     firstn (List.length msg) (concat (map snd (fst (write_ndef_to_ntag ok msg))))
     = msg).
Proof.
  intros E.
  assert (Hlen : (List.length text_bytes < 248)%nat /\
                 List.length msg = (List.length text_bytes + 10)%nat \/
                 (248 <= List.length text_bytes)%nat /\
                 List.length msg = (List.length text_bytes + 12)%nat).
  { destruct (create_ndef_message_cases text_bytes msg E) as [[H ->] | [H ->]];
      rewrite !length_app; cbn [List.length]; lia. }
  split.
  - intros H. apply write_ndef_rejects. lia.
  - intros H Hok. rewrite (write_ndef_result ok msg ltac:(lia) (fun j _ => Hok j)).
    cbn [fst snd]. split; [reflexivity |].
    rewrite written_bytes. rewrite firstn_app, Nat.sub_diag, firstn_all.
    cbn [firstn]. apply app_nil_r.
Qed.

Lemma ndef_text_fits_ntag_witness :
  create_ndef_message [104; 105] = Some [3; 9; 209; 1; 5; 84; 2; 101; 110; 104; 105; 254] /\
  (forall j : nat, (fun _ => true) j = true) /\
  snd (write_ndef_to_ntag (fun _ => true) [3; 9; 209; 1; 5; 84; 2; 101; 110; 104; 105; 254])
    = true /\
  firstn 12 (concat (map snd (fst (write_ndef_to_ntag (fun _ => true)
                 [3; 9; 209; 1; 5; 84; 2; 101; 110; 104; 105; 254]))))
  = [3; 9; 209; 1; 5; 84; 2; 101; 110; 104; 105; 254].
Proof.
  assert (E : create_ndef_message [104; 105]
              = Some [3; 9; 209; 1; 5; 84; 2; 101; 110; 104; 105; 254]) by reflexivity.
  split; [exact E | split; [intros; reflexivity |]].
  exact (proj2 (ndef_text_fits_ntag (fun _ => true) _ _ E) ltac:(cbn; lia)
           (fun _ => eq_refl)).
Defined.

End NtagExtras.

(** ** Reader: event stream, backoffs, heartbeats and identifiers *)
Module ReaderExtras.
Import NFCReader ReaderTrace ReaderProofs.

Ltac reader_simpl :=
  cbn [fst snd retry_count shutdown_requested fatal_exit recent_taps
       last_heartbeat events waits emit set_retry_count set_shutdown set_fatal
       set_recent set_heartbeat add_wait] in *.

Lemma count_events_app (f : event -> bool) (l1 l2 : list event) :
  count_events f (l1 ++ l2) = (count_events f l1 + count_events f l2)%nat.
Proof. unfold count_events. now rewrite filter_app, length_app. Qed.

Lemma scan_iteration_events (cfg : config) (p : poll) (r : reader) :
  exists added, events (scan_iteration cfg p r) = events r ++ added /\
    Forall scan_event added.
Proof.
  unfold scan_iteration, send_heartbeat_if_needed.
  destruct (HEARTBEAT_INTERVAL_MS <=? hb_now p - last_heartbeat r);
    destruct (polled p) as [[|b u]|];
    try destruct (is_duplicate_tap _ _ _ _); reader_simpl.
  all: first
    [ exists []; split; [now rewrite app_nil_r | constructor]
    | eexists; split; [rewrite <- ?app_assoc; reflexivity |];
      repeat (apply Forall_cons || apply Forall_nil); unfold scan_event; eauto ].
Qed.

Lemma scan_loop_events (cfg : config) (polls : list poll) (r : reader) :
  exists added, events (scan_loop cfg polls r) = events r ++ added /\
    Forall scan_event added.
Proof.
  revert r. induction polls as [|p polls IH]; intros r.
  - exists []. split; [now rewrite app_nil_r | constructor].
  - cbn [scan_loop].
    destruct (scan_iteration_events cfg p r) as (a1 & E1 & F1).
    destruct (IH (scan_iteration cfg p r)) as (a2 & E2 & F2).
    exists (a1 ++ a2). rewrite E2, E1, app_assoc.
    split; [reflexivity | now apply Forall_app].
Qed.

Lemma connect_phase_events (cfg : config) (fw : string) (polls : list poll)
    (r : reader) :
  exists added,
    events (connect_phase cfg fw polls r) = events r ++ Ready fw (port cfg) :: added /\
    Forall scan_event added.
Proof.
  unfold connect_phase.
  destruct (scan_loop_events cfg polls
              (set_retry_count 0 (emit (Ready fw (port cfg)) r))) as (a & E & F).
  exists a. rewrite E. reader_simpl. rewrite <- app_assoc. auto.
Qed.

Lemma handle_shutdown_events (s : Z) (r : reader) :
  events (handle_shutdown s r) =
  events r ++ (if shutdown_requested r then [] else [Shutdown s]).
Proof.
  unfold handle_shutdown.
  destruct (shutdown_requested r); reader_simpl; [now rewrite app_nil_r | reflexivity].
Qed.

Lemma handle_retry_events (c : err_class) (m : string) (sig : option Z)
    (r : reader) :
  exists added, events (snd (handle_retry c m sig r)) = events r ++ added /\
    Forall (fun e => is_tap e = false) added.
Proof.
  unfold handle_retry. reader_simpl.
  destruct (MAX_RETRIES <=? S (retry_count r))%nat; reader_simpl.
  - eexists; split; [rewrite <- app_assoc; reflexivity | repeat constructor].
  - unfold interruptible_sleep. destruct sig as [s|]; reader_simpl.
    + rewrite handle_shutdown_events. reader_simpl.
      eexists; split; [rewrite <- app_assoc; reflexivity |].
      apply Forall_app; split; [repeat constructor |].
      destruct (shutdown_requested r); repeat constructor.
    + eexists; split; [reflexivity | repeat constructor].
Qed.

Lemma taps_after_ready_app_notap (l a : list event) :
  taps_after_ready l -> Forall (fun e => is_tap e = false) a ->
  taps_after_ready (l ++ a).
Proof.
  intros H Ha i u Hi.
  destruct (Nat.lt_ge_cases i (List.length l)) as [Hlt | Hge].
  - rewrite nth_error_app1 in Hi by exact Hlt.
    destruct (H i u Hi) as (j & fw & p & Hj & Hn).
    exists j, fw, p. split; [exact Hj |]. rewrite nth_error_app1 by lia. exact Hn.
  - rewrite nth_error_app2 in Hi by exact Hge. apply nth_error_In in Hi.
    rewrite Forall_forall in Ha. specialize (Ha _ Hi). discriminate.
Qed.

Lemma taps_after_ready_app_ready (l a : list event) (fw p : string) :
  taps_after_ready l -> In (Ready fw p) l -> taps_after_ready (l ++ a).
Proof.
  intros H Hin i u Hi.
  destruct (Nat.lt_ge_cases i (List.length l)) as [Hlt | Hge].
  - rewrite nth_error_app1 in Hi by exact Hlt.
    destruct (H i u Hi) as (j & fw' & p' & Hj & Hn).
    exists j, fw', p'. split; [exact Hj |]. rewrite nth_error_app1 by lia. exact Hn.
  - apply In_nth_error in Hin as [j Hj].
    assert (j < List.length l)%nat by (apply nth_error_Some; congruence).
    exists j, fw, p. split; [lia |]. rewrite nth_error_app1 by lia. exact Hj.
Qed.

Lemma run_attempt_taps_after_ready (cfg : config) (a : attempt) (r : reader) :
  taps_after_ready (events r) ->
  taps_after_ready (events (snd (run_attempt cfg a r))).
Proof.
  intros H. destruct a as [c m sig | m | fw polls e]; cbn [run_attempt].
  - destruct (handle_retry_events c m sig r) as (a & -> & F).
    now apply taps_after_ready_app_notap.
  - unfold fatal_error. reader_simpl.
    apply taps_after_ready_app_notap; [exact H | repeat constructor].
  - assert (H2 : taps_after_ready (events (connect_phase cfg fw polls r))).
    { destruct (connect_phase_events cfg fw polls r) as (a & -> & _).
      replace (events r ++ Ready fw (port cfg) :: a)
        with ((events r ++ [Ready fw (port cfg)]) ++ a)
        by (rewrite <- app_assoc; reflexivity).
      apply (taps_after_ready_app_ready _ _ fw (port cfg)).
      - apply taps_after_ready_app_notap; [exact H | repeat constructor].
      - apply in_or_app. right. left. reflexivity. }
    destruct e as [s | c m sig | m]; cbn [snd].
    + rewrite handle_shutdown_events. apply taps_after_ready_app_notap; [exact H2 |].
      destruct (shutdown_requested _); repeat constructor.
    + destruct (handle_retry_events c m sig (connect_phase cfg fw polls r)) as (a & -> & F).
      now apply taps_after_ready_app_notap.
    + unfold fatal_error. reader_simpl.
      apply taps_after_ready_app_notap; [exact H2 | repeat constructor].
Qed.

Lemma run_loop_taps_after_ready (cfg : config) (env : list attempt) (r r' : reader) :
  taps_after_ready (events r) -> run_loop cfg env r = Some r' ->
  taps_after_ready (events r').
Proof.
  revert r. induction env as [|a env IH]; intros r H Hrun; cbn [run_loop] in Hrun;
    destruct (loop_condition r); cbn [negb] in Hrun;
    try (injection Hrun as <-; exact H); try discriminate.
  pose proof (run_attempt_taps_after_ready cfg a r H) as H1.
  destruct (run_attempt cfg a r) as [again r1]. cbn [snd] in H1.
  destruct again; [exact (IH r1 H1 Hrun) | injection Hrun as <-; exact H1].
Qed.

Lemma handle_retry_waits (c : err_class) (m : string) (sig : option Z)
    (r : reader) :
  (retry_count r < MAX_RETRIES)%nat -> Forall backoff (waits r) ->
  Forall backoff (waits (snd (handle_retry c m sig r))).
Proof.
  intros Hr Hw. destruct (Nat.lt_ge_cases (S (retry_count r)) MAX_RETRIES) as [Hb | Hc].
  - destruct (handle_retry_below c m sig r Hb) as (_ & -> & _).
    apply Forall_app. split; [exact Hw |]. unfold MAX_RETRIES in Hb.
    destruct (retry_count r) as [|[|[|[|n]]]]; try lia;
      (apply Forall_cons; [| apply Forall_nil]); unfold backoff; cbn; lia.
  - rewrite (handle_retry_ceiling c m sig r Hc). reader_simpl. exact Hw.
Qed.

Lemma run_attempt_waits (cfg : config) (a : attempt) (r : reader) :
  loop_condition r = true -> Forall backoff (waits r) ->
  Forall backoff (waits (snd (run_attempt cfg a r))).
Proof.
  intros Hl Hw. unfold loop_condition in Hl. apply andb_true_iff in Hl as [Hr _].
  apply Nat.ltb_lt in Hr.
  destruct a as [c m sig | m | fw polls e]; cbn [run_attempt].
  - now apply handle_retry_waits.
  - exact Hw.
  - destruct (connect_phase_fields cfg fw polls r) as (R0 & _ & _ & W0).
    destruct e as [s | c m sig | m]; cbn [snd].
    + destruct (handle_shutdown_fields s (connect_phase cfg fw polls r)) as (_ & _ & _ & -> & _).
      rewrite W0. exact Hw.
    + apply handle_retry_waits; [rewrite R0; unfold MAX_RETRIES; lia | rewrite W0; exact Hw].
    + unfold fatal_error. reader_simpl. rewrite W0. exact Hw.
Qed.

Lemma run_loop_waits (cfg : config) (env : list attempt) (r r' : reader) :
  Forall backoff (waits r) -> run_loop cfg env r = Some r' ->
  Forall backoff (waits r').
Proof.
  revert r. induction env as [|a env IH]; intros r H Hrun; cbn [run_loop] in Hrun;
    destruct (loop_condition r) eqn:Hl; cbn [negb] in Hrun;
    try (injection Hrun as <-; exact H); try discriminate.
  pose proof (run_attempt_waits cfg a r Hl H) as H1.
  destruct (run_attempt cfg a r) as [again r1]. cbn [snd] in H1.
  destruct again; [exact (IH r1 H1 Hrun) | injection Hrun as <-; exact H1].
Qed.

Lemma heartbeat_step (cfg : config) (p : poll) (r : reader) :
  let due := HEARTBEAT_INTERVAL_MS <=? hb_now p - last_heartbeat r in
  count_events is_heartbeat (events (scan_iteration cfg p r)) =
    (count_events is_heartbeat (events r) + (if due then 1 else 0))%nat /\
  last_heartbeat (scan_iteration cfg p r) =
    (if due then hb_now p else last_heartbeat r).
Proof.
  cbv zeta. unfold scan_iteration, send_heartbeat_if_needed.
  destruct (HEARTBEAT_INTERVAL_MS <=? hb_now p - last_heartbeat r);
    destruct (polled p) as [[|b u]|];
    try destruct (is_duplicate_tap _ _ _ _); reader_simpl;
    rewrite ?count_events_app; split; try reflexivity; cbn; lia.
Qed.

Lemma nondecreasing_cons2 (a b : Z) (l : list Z) :
  nondecreasing (a :: b :: l) = true <-> a <= b /\ nondecreasing (b :: l) = true.
Proof. cbn [nondecreasing]. rewrite andb_true_iff, Z.leb_le. reflexivity. Qed.

Lemma nondecreasing_lower (a b : Z) (l : list Z) :
  a <= b -> nondecreasing (b :: l) = true -> nondecreasing (a :: l) = true.
Proof.
  destruct l as [|c l]; [reflexivity |]. rewrite !nondecreasing_cons2.
  intros H [H1 H2]. split; [lia | exact H2].
Qed.

Lemma nondecreasing_tail (a : Z) (l : list Z) :
  nondecreasing (a :: l) = true -> nondecreasing l = true.
Proof. destruct l as [|b l]; [reflexivity |]. rewrite nondecreasing_cons2. tauto. Qed.

Lemma nondecreasing_head_le (a x : Z) (l : list Z) :
  nondecreasing (a :: l) = true -> In x l -> a <= x.
Proof.
  revert a. induction l as [|b l IH]; intros a H Hin; [destruct Hin |].
  apply nondecreasing_cons2 in H as [H1 H2]. destruct Hin as [-> | Hin]; [exact H1 |].
  specialize (IH b H2 Hin). lia.
Qed.

Lemma nondecreasing_app_r (l1 l2 : list Z) :
  nondecreasing (l1 ++ l2) = true -> nondecreasing l2 = true.
Proof.
  induction l1 as [|a l1 IH]; intros H; [exact H |].
  apply IH. exact (nondecreasing_tail a _ H).
Qed.

Lemma last_default (l : list Z) (d d' : Z) : l <> [] -> last l d = last l d'.
Proof.
  induction l as [|a l IH]; intros H; [contradiction |].
  destruct l as [|b l]; [reflexivity |]. cbn [last]. apply IH. discriminate.
Qed.

Lemma nibble_char_code (n : Z) : 0 <= n < 16 ->
  Ascii.nat_of_ascii (nibble_char n) =
  Z.to_nat (if n <? 10 then 48 + n else 55 + n).
Proof.
  intros H. unfold nibble_char.
  destruct (n <? 10); apply Ascii.nat_ascii_embedding; lia.
Qed.

Lemma nibble_char_inj (a b : Z) : 0 <= a < 16 -> 0 <= b < 16 ->
  nibble_char a = nibble_char b -> a = b.
Proof.
  intros Ha Hb E. apply (f_equal Ascii.nat_of_ascii) in E.
  rewrite !nibble_char_code in E by assumption.
  destruct (Z.ltb_spec a 10), (Z.ltb_spec b 10); lia.
Qed.

Lemma byte_nibbles (b : Z) : 0 <= b <= 255 ->
  0 <= Z.shiftr b 4 < 16 /\ 0 <= Z.land b 15 < 16 /\
  b = 16 * Z.shiftr b 4 + Z.land b 15.
Proof.
  intros H. rewrite Z.shiftr_div_pow2 by lia.
  change 15 with (Z.ones 4). rewrite Z.land_ones by lia.
  change (2 ^ 4) with 16. pose proof (Z.div_mod b 16). pose proof (Z.mod_pos_bound b 16).
  split; [split; [apply Z.div_pos | apply Z.div_lt_upper_bound] |]; lia.
Qed.

(** The identifier reported in a [tap] event, [uid.hex().upper()] in
    [_scan_loop] (line 227), is two characters per byte and tells byte
    strings apart: two byte strings get the same identifier exactly when
    they are equal. *)
Theorem hex_upper_injective (u v : list Z) :
  Forall (fun b => 0 <= b <= 255) u -> Forall (fun b => 0 <= b <= 255) v ->
  (hex_upper u = hex_upper v <-> u = v) /\
  String.length (hex_upper u) = (2 * List.length u)%nat.
Proof.
  intros Hu Hv. split.
  - split; [| intros ->; reflexivity].
    revert v Hv. induction Hu as [|b u Hb Hu IH];
      intros [|c v] Hv E; try discriminate; [reflexivity |].
    inversion Hv as [|? ? Hc Hv']; subst.
    cbn [hex_upper] in E. injection E as E1 E2 E3.
    destruct (byte_nibbles b Hb) as (B1 & B2 & B3).
    destruct (byte_nibbles c Hc) as (C1 & C2 & C3).
    apply nibble_char_inj in E1; [| assumption | assumption].
    apply nibble_char_inj in E2; [| assumption | assumption].
    f_equal; [lia | exact (IH v Hv' E3)].
  - clear Hv. induction u as [|b u IH]; [reflexivity |].
    cbn [hex_upper String.length List.length]. rewrite IH by (inversion Hu; assumption). lia.
Qed.

Lemma hex_upper_injective_witness :
  Forall (fun b => 0 <= b <= 255) [4; 161] /\ Forall (fun b => 0 <= b <= 255) [64; 26] /\
  (hex_upper [4; 161] = hex_upper [64; 26] <-> [4; 161] = [64; 26]) /\
  String.length (hex_upper [4; 161]) = (2 * List.length [4; 161])%nat.
Proof.
  assert (H1 : Forall (fun b => 0 <= b <= 255) [4; 161]) by (repeat constructor; lia).
  assert (H2 : Forall (fun b => 0 <= b <= 255) [64; 26]) by (repeat constructor; lia).
  split; [exact H1 | split; [exact H2 | exact (hex_upper_injective _ _ H1 H2)]].
Defined.

(** In the event stream of a run, every [tap] event is preceded by a
    [ready] event: identifiers are only reported after the reader has been
    initialized. *)
Theorem taps_follow_ready (cfg : config) (t0 : Z) (env : list attempt)
    (code : Z) (r' : reader) :
  run cfg t0 env = Some (code, r') ->
  forall i u, nth_error (events r') i = Some (Tap u) ->
  exists j fw p, (j < i)%nat /\ nth_error (events r') j = Some (Ready fw p).
Proof.
  unfold run. destruct (run_loop cfg env (initial_reader t0)) as [r|] eqn:E;
    [| discriminate].
  intros H. injection H as _ <-.
  apply (run_loop_taps_after_ready cfg env (initial_reader t0) r); [| exact E].
  intros i u Hi. destruct i; discriminate.
Qed.

Lemma taps_follow_ready_witness :
  run default_config 0 [Connected "1.6" [seen [1] 0] (EndShutdown 2)] =
  Some (0, {| retry_count := 0; shutdown_requested := true; fatal_exit := false;
              recent_taps := [{| tap_uid := "01"; tap_time := 0 |}];
              last_heartbeat := 0;
              events := [Ready "1.6" "/dev/ttyUSB0"; Tap "01"; Shutdown 2];
              waits := [] |}) /\
  nth_error [Ready "1.6" "/dev/ttyUSB0"; Tap "01"; Shutdown 2] 1 = Some (Tap "01") /\
  exists j fw p, (j < 1)%nat /\
    nth_error [Ready "1.6" "/dev/ttyUSB0"; Tap "01"; Shutdown 2] j = Some (Ready fw p).
Proof.
  split; [reflexivity |]. split; [reflexivity |].
  exact (taps_follow_ready default_config 0 [Connected "1.6" [seen [1] 0] (EndShutdown 2)]
           0 _ eq_refl 1 "01" eq_refl).
Defined.

(** Every backoff a run waits for, [2 ** retry_count] seconds in
    [_handle_retry], is 2, 4, 8 or 16 seconds: the retry ceiling of 5 stops
    the loop before a 32-second wait. *)
Theorem run_backoffs (cfg : config) (t0 : Z) (env : list attempt)
    (code : Z) (r' : reader) :
  run cfg t0 env = Some (code, r') ->
  Forall (fun w => In w [2; 4; 8; 16]) (waits r').
Proof.
  unfold run. destruct (run_loop cfg env (initial_reader t0)) as [r|] eqn:E;
    [| discriminate].
  intros H. injection H as _ <-.
  exact (run_loop_waits cfg env (initial_reader t0) r (Forall_nil _) E).
Qed.

Lemma run_backoffs_witness :
  run default_config 0 (three_failures ++ [InitUnexpected "boom"]) =
  Some (1, {| retry_count := 3; shutdown_requested := false; fatal_exit := true;
              recent_taps := []; last_heartbeat := 0;
              events := [Error "Serial error: could not open port" false;
                         Error "PN532 error: No response" false;
                         Error "PN532 error: No response" false;
                         Error "boom" true];
              waits := [2; 4; 8] |}) /\
  Forall (fun w => In w [2; 4; 8; 16]) [2; 4; 8].
Proof.
  split; [reflexivity |].
  exact (run_backoffs default_config 0 (three_failures ++ [InitUnexpected "boom"]) 1 _ eq_refl).
Defined.

(** Over a scan with monotonic clock readings, [_send_heartbeat_if_needed]
    spaces heartbeats at least 30 s apart: the [k] heartbeats it emits take
    the last heartbeat time forward by at least [30000 * k] ms, never past
    the last reading; and after the scan the last heartbeat is less than
    30 s older than that last reading. *)
Theorem heartbeat_spacing (cfg : config) (polls : list poll) (r : reader) :
  nondecreasing (last_heartbeat r :: map hb_now polls) = true ->
  let r' := scan_loop cfg polls r in
  HEARTBEAT_INTERVAL_MS *
    (Z.of_nat (count_events is_heartbeat (events r')) -
     Z.of_nat (count_events is_heartbeat (events r)))
    <= last_heartbeat r' - last_heartbeat r /\
  last_heartbeat r' <= last (map hb_now polls) (last_heartbeat r) /\
  last (map hb_now polls) (last_heartbeat r) - last_heartbeat r' <
    HEARTBEAT_INTERVAL_MS.
Proof.
  cbv zeta. revert r. induction polls as [|p polls IH]; intros r H.
  - cbn [scan_loop map last]. unfold HEARTBEAT_INTERVAL_MS. lia.
  - cbn [map] in H. apply nondecreasing_cons2 in H as [H0 H1].
    cbn [scan_loop map].
    destruct (heartbeat_step cfg p r) as [C1 L1]. cbv zeta in C1, L1.
    set (r1 := scan_iteration cfg p r) in *.
    assert (Hr1 : last_heartbeat r1 <= hb_now p)
      by (rewrite L1; destruct (_ <=? _); lia).
    pose proof (nondecreasing_lower _ _ _ Hr1 H1) as H2.
    destruct (IH r1 H2) as (I1 & I2 & I3).
    set (r' := scan_loop cfg polls r1) in *.
    assert (Er : polls = [] -> r' = r1) by (intros ->; reflexivity).
    clearbody r' r1. unfold HEARTBEAT_INTERVAL_MS in *.
    destruct (30000 <=? hb_now p - last_heartbeat r) eqn:D;
      [apply Z.leb_le in D | apply Z.leb_gt in D];
      rewrite C1 in I1; rewrite L1 in I1, I2, I3; cbv iota in I1.
    + destruct polls as [|q polls].
      * cbn [map last] in *. specialize (Er eq_refl). subst r'.
        split; [| split]; lia.
      * cbn [map] in *.
        rewrite (last_default _ (hb_now p) (last_heartbeat r)) in I2, I3 by discriminate.
        change (last (hb_now p :: hb_now q :: map hb_now polls) (last_heartbeat r))
          with (last (hb_now q :: map hb_now polls) (last_heartbeat r)).
        split; [| split]; lia.
    + destruct polls as [|q polls].
      * cbn [map last] in *. specialize (Er eq_refl). subst r'.
        split; [| split]; lia.
      * cbn [map] in *. change (last (hb_now p :: hb_now q :: map hb_now polls) (last_heartbeat r))
          with (last (hb_now q :: map hb_now polls) (last_heartbeat r)).
        split; [| split]; lia.
Qed.

Lemma heartbeat_spacing_witness :
  nondecreasing (last_heartbeat (initial_reader 0) ::
                 map hb_now [seen [1] 0; seen [] 30000; seen [] 45000; seen [] 61000]) = true /\
  let r' := scan_loop default_config
              [seen [1] 0; seen [] 30000; seen [] 45000; seen [] 61000] (initial_reader 0) in
  HEARTBEAT_INTERVAL_MS *
    (Z.of_nat (count_events is_heartbeat (events r')) -
     Z.of_nat (count_events is_heartbeat (events (initial_reader 0))))
    <= last_heartbeat r' - last_heartbeat (initial_reader 0) /\
  last_heartbeat r' <=
    last (map hb_now [seen [1] 0; seen [] 30000; seen [] 45000; seen [] 61000])
         (last_heartbeat (initial_reader 0)) /\
  last (map hb_now [seen [1] 0; seen [] 30000; seen [] 45000; seen [] 61000])
       (last_heartbeat (initial_reader 0)) - last_heartbeat r' <
    HEARTBEAT_INTERVAL_MS.
Proof.
  split; [reflexivity |].
  apply heartbeat_spacing. reflexivity.
Defined.

(** With a duplicate buffer of size 0 ([deque(maxlen=0)]) nothing is ever
    remembered, so nothing is debounced: the scan reports, in order, every
    non-empty identifier it polls. *)
Theorem zero_buffer_no_debounce (cfg : config) (polls : list poll) (r : reader) :
  dedup_buffer_size cfg = 0%nat -> recent_taps r = [] ->
  recent_taps (scan_loop cfg polls r) = [] /\
  taps (events (scan_loop cfg polls r)) =
    taps (events r) ++ map hex_upper (observed polls).
Proof.
  intros Hz. revert r. induction polls as [|p polls IH]; intros r Hr.
  - cbn. rewrite app_nil_r. auto.
  - cbn [scan_loop observed].
    destruct (polled p) as [[|b u]|] eqn:Hp.
    + destruct (heartbeat_fields (hb_now p) r) as [R1 T1].
      assert (E : scan_iteration cfg p r = send_heartbeat_if_needed (hb_now p) r)
        by (unfold scan_iteration; rewrite Hp; reflexivity).
      destruct (IH (scan_iteration cfg p r)) as [I1 I2]; [rewrite E, R1; exact Hr |].
      split; [exact I1 | rewrite I2, E, T1; reflexivity].
    + destruct (scan_iteration_uid cfg p r (b :: u) Hp ltac:(discriminate)) as [R1 T1].
      cbv zeta in R1, T1. rewrite Hr in R1, T1. cbn [is_duplicate_tap existsb] in R1, T1.
      assert (R2 : recent_taps (scan_iteration cfg p r) = []).
      { rewrite R1. unfold record_tap, deque_append. rewrite Hz. reflexivity. }
      destruct (IH _ R2) as [I1 I2]. split; [exact I1 | rewrite I2, T1, <- app_assoc; reflexivity].
    + destruct (heartbeat_fields (hb_now p) r) as [R1 T1].
      assert (E : scan_iteration cfg p r = send_heartbeat_if_needed (hb_now p) r)
        by (unfold scan_iteration; rewrite Hp; reflexivity).
      destruct (IH (scan_iteration cfg p r)) as [I1 I2]; [rewrite E, R1; exact Hr |].
      split; [exact I1 | rewrite I2, E, T1; reflexivity].
Qed.

Lemma zero_buffer_no_debounce_witness :
  dedup_buffer_size {| port := "/dev/ttyUSB0"; baud_rate := 115200; debounce_ms := 1000;
                       dedup_buffer_size := 0 |} = 0%nat /\
  recent_taps (initial_reader 0) = [] /\
  recent_taps (scan_loop {| port := "/dev/ttyUSB0"; baud_rate := 115200; debounce_ms := 1000;
                            dedup_buffer_size := 0 |}
                 [seen [1] 0; seen [1] 10] (initial_reader 0)) = [] /\
  taps (events (scan_loop {| port := "/dev/ttyUSB0"; baud_rate := 115200; debounce_ms := 1000;
                             dedup_buffer_size := 0 |}
                  [seen [1] 0; seen [1] 10] (initial_reader 0))) =
    taps (events (initial_reader 0)) ++ map hex_upper (observed [seen [1] 0; seen [1] 10]).
Proof.
  split; [reflexivity |]. split; [reflexivity |].
  apply zero_buffer_no_debounce; reflexivity.
Defined.

(** With a debounce window of at most 0 ms, no tap is a duplicate as long
    as the clock does not go back: over a scan whose readings never
    decrease and are no earlier than the taps remembered, every non-empty
    identifier polled is reported. *)
Theorem nonpositive_window_no_debounce (cfg : config) (polls : list poll)
    (r : reader) :
  debounce_ms cfg <= 0 ->
  nondecreasing (readings polls) = true ->
  (forall t x, In t (recent_taps r) -> In x (readings polls) -> tap_time t <= x) ->
  taps (events (scan_loop cfg polls r)) =
    taps (events r) ++ map hex_upper (observed polls).
Proof.
  intros Hd. revert r. induction polls as [|p polls IH]; intros r Hm Ht.
  - cbn. rewrite app_nil_r. reflexivity.
  - assert (RP : readings (p :: polls) =
                 hb_now p :: dup_now p :: rec_now p :: readings polls) by reflexivity.
    rewrite RP in Hm, Ht.
    pose proof (nondecreasing_tail _ _ (nondecreasing_tail _ _ (nondecreasing_tail _ _ Hm))) as Hm'.
    assert (Ht' : forall t x, In t (recent_taps r) -> In x (readings polls) -> tap_time t <= x)
      by (intros t x H1 H2; apply Ht; [exact H1 | right; right; right; exact H2]).
    cbn [scan_loop observed].
    destruct (polled p) as [[|b u]|] eqn:Hp.
    + destruct (heartbeat_fields (hb_now p) r) as [R1 T1].
      assert (E : scan_iteration cfg p r = send_heartbeat_if_needed (hb_now p) r)
        by (unfold scan_iteration; rewrite Hp; reflexivity).
      rewrite (IH _ Hm'), E, T1; [reflexivity |]. rewrite E, R1. exact Ht'.
    + destruct (scan_iteration_uid cfg p r (b :: u) Hp ltac:(discriminate)) as [R1 T1].
      cbv zeta in R1, T1.
      assert (Nd : is_duplicate_tap cfg (recent_taps r) (hex_upper (b :: u)) (dup_now p) = false).
      { unfold is_duplicate_tap. apply not_true_iff_false. intros Hx.
        apply existsb_exists in Hx as (t & Hin & Hx).
        apply andb_true_iff in Hx as [_ Hx]. apply Z.ltb_lt in Hx.
        specialize (Ht t (dup_now p) Hin ltac:(right; left; reflexivity)). lia. }
      rewrite Nd in R1, T1.
      rewrite (IH _ Hm'), T1, <- app_assoc; [reflexivity |].
      rewrite R1. intros t x Hin Hx. unfold record_tap in Hin.
      apply deque_append_in in Hin as [Hin | ->]; [exact (Ht' t x Hin Hx) |].
      cbn [tap_time]. apply (nondecreasing_head_le (rec_now p) x (readings polls)); [| exact Hx].
      exact (nondecreasing_tail _ _ (nondecreasing_tail _ _ Hm)).
    + destruct (heartbeat_fields (hb_now p) r) as [R1 T1].
      assert (E : scan_iteration cfg p r = send_heartbeat_if_needed (hb_now p) r)
        by (unfold scan_iteration; rewrite Hp; reflexivity).
      rewrite (IH _ Hm'), E, T1; [reflexivity |]. rewrite E, R1. exact Ht'.
Qed.

Lemma nonpositive_window_no_debounce_witness :
  debounce_ms {| port := "/dev/ttyUSB0"; baud_rate := 115200; debounce_ms := 0;
                 dedup_buffer_size := 10 |} <= 0 /\
  nondecreasing (readings [seen [1] 0; seen [1] 0]) = true /\
  taps (events (scan_loop {| port := "/dev/ttyUSB0"; baud_rate := 115200; debounce_ms := 0;
                             dedup_buffer_size := 10 |}
                  [seen [1] 0; seen [1] 0] (initial_reader 0))) =
    taps (events (initial_reader 0)) ++ map hex_upper (observed [seen [1] 0; seen [1] 0]).
Proof.
  split; [cbn; lia |]. split; [reflexivity |].
  apply nonpositive_window_no_debounce; [cbn; lia | reflexivity |].
  intros t x [].
Defined.

End ReaderExtras.
